(** * keybindings-remove.py and keybindings-sort.py: a shallow embedding

    The two tools edit a JSON-with-comments array held in one text.  Both are
    pure functions from the text read on standard input (and the command-line
    options) to the text written on standard output; this file embeds them
    function by function and states the properties of the specification over
    the embedding.

    Modelling conventions.
    - A Python [str] is a [string]; the character classes of [str.strip],
      [str.splitlines], [str.isdigit], [str.lower] and of the regular
      expression classes [\s] and [\d] are those of the code points below 128.
      Characters from 128 up are carried unchanged and belong to none of the
      classes, which is not what Python does with all of them: a property
      whose statement rests on one of these classes is stated for the texts
      that [str.isascii] accepts.
    - [int] raises [ValueError] on a text of more than 4300 digits, the
      limit [sys.int_max_str_digits] of the interpreter.
    - [json.loads] is a library function: the tools are embedded over an
      arbitrary decoder ([json_loads], a section variable), and the closed
      examples instantiate it with [Json.json_loads_flat], a decoder of the
      JSON fragment without fractional numbers and without [\u] escapes.
    - A Python exception is [None]. *)

From Stdlib Require Import Bool Arith NArith ZArith List String Ascii Lia.
From Stdlib Require Import Permutation Sorted.
From Stdlib Require DecimalString.
Import ListNotations.
Open Scope string_scope.

(** ** Python [str] methods *)

Module PyStr.

Definition LF : ascii := "010"%char.
Definition CR : ascii := "013"%char.
Definition DQ : ascii := "034"%char.
Definition SQ : ascii := "039"%char.
Definition BSL : ascii := "092"%char.

Definition chr (c : ascii) : string := String c EmptyString.

(** [str.isspace] on one character: TAB, LF, VT, FF, CR, FS, GS, RS, US and
    the space.  The regular expression class [\s] is the same set. *)
Definition isspace (c : ascii) : bool :=
  let n := nat_of_ascii c in
  (((9 <=? n) && (n <=? 13)) || ((28 <=? n) && (n <=? 32)))%nat.

(** [str.isdigit] on one character, and the class [\d]. *)
Definition isdigit (c : ascii) : bool :=
  let n := nat_of_ascii c in ((48 <=? n) && (n <=? 57))%nat.

(** The characters at which [str.splitlines] ends a line (CR LF counts as
    one boundary, see [splitlines_from]). *)
Definition islinebreak (c : ascii) : bool :=
  let n := nat_of_ascii c in
  (((10 <=? n) && (n <=? 13)) || ((28 <=? n) && (n <=? 30)))%nat.

(** [str.isascii]: every code point is below 128. *)
Definition isascii_char (c : ascii) : bool := (nat_of_ascii c <? 128)%nat.

Fixpoint isascii (s : string) : bool :=
  match s with
  | EmptyString => true
  | String c s' => isascii_char c && isascii s'
  end.

Definition lower_char (c : ascii) : ascii :=
  let n := nat_of_ascii c in
  if ((65 <=? n) && (n <=? 90))%nat then ascii_of_nat (n + 32) else c.

(** [s.lower()] *)
Fixpoint lower (s : string) : string :=
  match s with
  | EmptyString => EmptyString
  | String c s' => String (lower_char c) (lower s')
  end.

(** [s[n:]] and [s[:n]] for [0 <= n] *)
Fixpoint drop (n : nat) (s : string) {struct s} : string :=
  match s with
  | EmptyString => EmptyString
  | String _ s' => match n with O => s | S n' => drop n' s' end
  end.

Fixpoint take (n : nat) (s : string) {struct s} : string :=
  match s with
  | EmptyString => EmptyString
  | String c s' => match n with O => EmptyString | S n' => String c (take n' s') end
  end.

(** [s[a:b]] for [0 <= a], [0 <= b] *)
Definition slice (a b : nat) (s : string) : string := take (b - a) (drop a s).

(** [c in s] for a one-character [c] *)
Fixpoint has_char (c : ascii) (s : string) : bool :=
  match s with
  | EmptyString => false
  | String d s' => Ascii.eqb d c || has_char c s'
  end.

(** [s.count(c)] for a one-character [c] *)
Fixpoint count (c : ascii) (s : string) : nat :=
  match s with
  | EmptyString => 0
  | String d s' => (if Ascii.eqb d c then 1 else 0) + count c s'
  end.

(** [s.find(c)]: the lowest index of [c]; Python's [-1] is [None]. *)
Fixpoint find (c : ascii) (s : string) : option nat :=
  match s with
  | EmptyString => None
  | String d s' =>
      if Ascii.eqb d c then Some 0
      else match find c s' with Some i => Some (S i) | None => None end
  end.

(** [s.rfind(c)]: the highest index of [c]; Python's [-1] is [None]. *)
Fixpoint rfind (c : ascii) (s : string) : option nat :=
  match s with
  | EmptyString => None
  | String d s' =>
      match rfind c s' with
      | Some i => Some (S i)
      | None => if Ascii.eqb d c then Some 0 else None
      end
  end.

(** [s.startswith(p)] *)
Definition startswith (p s : string) : bool := prefix p s.

(** [s.endswith(p)] *)
Definition endswith (p s : string) : bool :=
  (length p <=? length s)%nat && (drop (length s - length p) s =? p).

(** [sub in s] *)
Fixpoint contains (sub s : string) : bool :=
  prefix sub s ||
  match s with
  | EmptyString => false
  | String _ s' => contains sub s'
  end.

(** [s.lstrip()], [s.rstrip()], [s.strip()] *)
Fixpoint lstrip (s : string) : string :=
  match s with
  | EmptyString => EmptyString
  | String c s' => if isspace c then lstrip s' else s
  end.

Fixpoint rstrip (s : string) : string :=
  match s with
  | EmptyString => EmptyString
  | String c s' =>
      match rstrip s' with
      | EmptyString => if isspace c then EmptyString else chr c
      | r => String c r
      end
  end.

Definition strip (s : string) : string := lstrip (rstrip s).

(** [s.splitlines(keepends=True)], started with the line [cur] read so far.
    A line ends after LF, CR LF, CR, VT, FF, FS, GS or RS; a last line
    without a terminator is kept when it is not empty. *)
Fixpoint splitlines_from (cur s : string) : list string :=
  match s with
  | EmptyString => match cur with EmptyString => [] | _ => [cur] end
  | String c s' =>
      if Ascii.eqb c CR then
        match s' with
        | String d s'' =>
            if Ascii.eqb d LF
            then (cur ++ String CR (chr LF)) :: splitlines_from EmptyString s''
            else (cur ++ chr CR) :: splitlines_from EmptyString s'
        | EmptyString => (cur ++ chr CR) :: splitlines_from EmptyString s'
        end
      else if islinebreak c then (cur ++ chr c) :: splitlines_from EmptyString s'
      else splitlines_from (cur ++ chr c) s'
  end.

Definition splitlines_keepends (s : string) : list string :=
  splitlines_from EmptyString s.

(** One line of [splitlines(keepends=True)] without its terminator. *)
Fixpoint chomp (l : string) : string :=
  match l with
  | EmptyString => EmptyString
  | String c l' => if islinebreak c then EmptyString else String c (chomp l')
  end.

(** [s.splitlines()] *)
Definition splitlines (s : string) : list string :=
  map chomp (splitlines_keepends s).

(** [''.join(ls)] *)
Fixpoint join (ls : list string) : string :=
  match ls with
  | [] => EmptyString
  | l :: ls' => l ++ join ls'
  end.

End PyStr.

(** ** The regular expressions of the two tools

    Each expression is used with one fixed pattern; it is embedded as the
    scanner that [re] runs for that pattern.  [re.sub] tries the pattern at
    every position from left to right, replaces a match and resumes after
    it, and copies a character at which nothing matches. *)

Module Re.
Import PyStr.

(** Length of the rest of a string literal, the opening quote already read:
    the first alternative of the comment pattern is a double quote, any
    number of repetitions of either a backslash with the character after it
    or one character that is neither a double quote nor a backslash, and a
    double quote.  The repetitions leave no choice, so the match is found
    without backtracking or there is none. *)
Fixpoint string_body (s : string) : option nat :=
  match s with
  | EmptyString => None
  | String c s' =>
      if Ascii.eqb c DQ then Some 1
      else if Ascii.eqb c BSL then
        match s' with
        | EmptyString => None
        | String _ s'' => option_map (fun n => 2 + n) (string_body s'')
        end
      else option_map S (string_body s')
  end.

(** Length of [.*?$] under MULTILINE and DOTALL: up to the next LF or the
    end of the text. *)
Fixpoint line_rest (s : string) : nat :=
  match s with
  | EmptyString => 0
  | String c s' => if Ascii.eqb c LF then 0 else S (line_rest s')
  end.

(** Length of [.*?\*/] under DOTALL: up to and with the first [*/]. *)
Fixpoint block_rest (s : string) : option nat :=
  match s with
  | EmptyString => None
  | String c s' =>
      if Ascii.eqb c "*" && prefix "/" s' then Some 2
      else option_map S (block_rest s')
  end.

(** The match of the comment pattern (a string literal, or [//.*?$], or
    [/\*.*?\*/]) at the head of [s]: whether it is a string literal, and its
    length. *)
Definition token_at (s : string) : option (bool * nat) :=
  match s with
  | EmptyString => None
  | String c s' =>
      if Ascii.eqb c DQ then
        option_map (fun n => (true, S n)) (string_body s')
      else if Ascii.eqb c "/" then
        match s' with
        | String d s'' =>
            if Ascii.eqb d "/" then Some (false, 2 + line_rest s'')
            else if Ascii.eqb d "*" then
              option_map (fun n => (false, 2 + n)) (block_rest s'')
            else None
        | EmptyString => None
        end
      else None
  end.

(** [re.sub] of that pattern with [replacer]: a string literal is copied, a
    comment is replaced by the empty string.  [skip] characters of the
    current match are still to be read, and [keep] tells whether they are
    copied. *)
Fixpoint sub_comments (skip : nat) (keep : bool) (s : string) : string :=
  match s with
  | EmptyString => EmptyString
  | String c s' =>
      match skip with
      | S k =>
          if keep then String c (sub_comments k keep s')
          else sub_comments k keep s'
      | O =>
          match token_at s with
          | Some (true, S k) => String c (sub_comments k true s')
          | Some (false, S k) => sub_comments k false s'
          | _ => String c (sub_comments 0 true s')
          end
      end
  end.

(** After a comma: the length of [\s*] when a closing brace or bracket
    follows it. *)
Fixpoint spaces_then_close (s : string) : option nat :=
  match s with
  | EmptyString => None
  | String c s' =>
      if Ascii.eqb c "}" || Ascii.eqb c "]" then Some 0
      else if isspace c then option_map S (spaces_then_close s')
      else None
  end.

(** [re.sub(r',\s*([}\]])', r'\1', text)]: the comma and the white space
    are dropped, the closing character stays. *)
Fixpoint sub_trailing_commas (skip : nat) (s : string) : string :=
  match s with
  | EmptyString => EmptyString
  | String c s' =>
      match skip with
      | S k => sub_trailing_commas k s'
      | O =>
          if Ascii.eqb c "," then
            match spaces_then_close s' with
            | Some k => sub_trailing_commas k s'
            | None => String c (sub_trailing_commas 0 s')
            end
          else String c (sub_trailing_commas 0 s')
      end
  end.

Fixpoint drop_commas (s : string) : string :=
  match s with
  | String c s' => if Ascii.eqb c "," then drop_commas s' else s
  | EmptyString => EmptyString
  end.

(** [re.sub(r'^\s*,+', '', after)]: without MULTILINE the pattern can match
    at the start of the text only. *)
Definition sub_leading_commas (after : string) : string :=
  match lstrip after with
  | String c r => if Ascii.eqb c "," then drop_commas r else after
  | EmptyString => after
  end.

(** [re.search(r'\{[\s\S]*?\}', text)]: from the first opening brace to the
    first closing brace after it. *)
Definition search_object_lazy (text : string) : option string :=
  match find "{" text with
  | None => None
  | Some i =>
      match find "}" (drop (S i) text) with
      | None => None
      | Some j => Some (slice i (S i + j + 1) text)
      end
  end.

(** [re.search(r'\{.*\}', text, re.DOTALL)]: from the first opening brace
    to the last closing brace of the text, when it comes later. *)
Definition search_object_greedy (text : string) : option string :=
  match find "{" text, rfind "}" text with
  | Some i, Some j => if (i <? j)%nat then Some (slice i (S j) text) else None
  | _, _ => None
  end.

(** [re.split(r'(\d+)', s)]: the texts between the maximal digit runs and
    the runs themselves, in turn; the list starts and ends with a text.
    [cur] is the piece read so far and [digits] tells whether it is a run. *)
Fixpoint split_digits (cur : string) (digits : bool) (s : string) : list string :=
  match s with
  | EmptyString => if digits then [cur; EmptyString] else [cur]
  | String c s' =>
      if isdigit c then
        if digits then split_digits (cur ++ chr c) true s'
        else cur :: split_digits (chr c) true s'
      else
        if digits then cur :: split_digits (chr c) false s'
        else split_digits (cur ++ chr c) false s'
  end.

Definition split_on_digits (s : string) : list string :=
  split_digits EmptyString false s.

End Re.

(** ** JSON values as Python objects *)

Module Json.
Import PyStr.

(** What [json.loads] returns.  A float is carried as the text that [str]
    prints for it. *)
#[warnings="-register-all"] Inductive jvalue : Type :=
| JNull
| JBool (b : bool)
| JInt (z : Z)
| JFloat (printed : string)
| JStr (s : string)
| JList (l : list jvalue)
| JDict (d : list (string * jvalue)).

Definition hex_digit (n : nat) : ascii :=
  if (n <? 10)%nat then ascii_of_nat (48 + n) else ascii_of_nat (87 + n).

(** One character of [repr] of a [str] delimited by [quote]. *)
Definition repr_char (quote c : ascii) : string :=
  let n := nat_of_ascii c in
  if Ascii.eqb c quote || Ascii.eqb c BSL then String BSL (chr c)
  else if Ascii.eqb c "009" then String BSL "t"
  else if Ascii.eqb c LF then String BSL "n"
  else if Ascii.eqb c CR then String BSL "r"
  else if (n <? 32)%nat || (n =? 127)%nat then
    String BSL (String "x" (String (hex_digit (n / 16)) (chr (hex_digit (n mod 16)))))
  else chr c.

Fixpoint repr_chars (quote : ascii) (s : string) : string :=
  match s with
  | EmptyString => EmptyString
  | String c s' => repr_char quote c ++ repr_chars quote s'
  end.

(** [repr(s)] of a [str]: single quotes, unless the text has a single quote
    and no double quote. *)
Definition repr_str (s : string) : string :=
  let quote := if has_char SQ s && negb (has_char DQ s) then DQ else SQ in
  String quote (repr_chars quote s ++ chr quote).

Definition str_of_int (z : Z) : string :=
  DecimalString.NilZero.string_of_int (Z.to_int z).

(** [repr(v)] *)
Fixpoint py_repr (v : jvalue) : string :=
  match v with
  | JNull => "None"
  | JBool true => "True"
  | JBool false => "False"
  | JInt z => str_of_int z
  | JFloat printed => printed
  | JStr s => repr_str s
  | JList l =>
      "[" ++
      (fix items (l : list jvalue) : string :=
         match l with
         | [] => EmptyString
         | [x] => py_repr x
         | x :: l' => py_repr x ++ ", " ++ items l'
         end) l ++ "]"
  | JDict d =>
      "{" ++
      (fix items (d : list (string * jvalue)) : string :=
         match d with
         | [] => EmptyString
         | [(k, x)] => repr_str k ++ ": " ++ py_repr x
         | (k, x) :: d' => repr_str k ++ ": " ++ py_repr x ++ ", " ++ items d'
         end) d ++ "}"
  end.

(** [str(v)]: a [str] is itself, everything else prints as its [repr]. *)
Definition py_str (v : jvalue) : string :=
  match v with
  | JStr s => s
  | _ => py_repr v
  end.

(** [d[k]] when present *)
Fixpoint lookup (k : string) (d : list (string * jvalue)) : option jvalue :=
  match d with
  | [] => None
  | (k', v) :: d' => if k' =? k then Some v else lookup k d'
  end.

(** [obj.get(k, default)]; on a value that is not a [dict] the attribute
    is missing and Python raises. *)
Definition get (obj : jvalue) (k : string) (default : jvalue) : option jvalue :=
  match obj with
  | JDict d =>
      match lookup k d with
      | Some v => Some v
      | None => Some default
      end
  | _ => None
  end.

(** [d[k] = v]: a key keeps the place of its first insertion. *)
Fixpoint setitem (k : string) (v : jvalue) (d : list (string * jvalue))
  : list (string * jvalue) :=
  match d with
  | [] => [(k, v)]
  | (k', v') :: d' =>
      if k' =? k then (k, v) :: d' else (k', v') :: setitem k v d'
  end.

(** *** A decoder for the closed examples

    [json_loads_flat] decodes the JSON texts without fractional or
    exponent numbers, without [NaN] and [Infinity] and without [\u]
    escapes, and gives what [json.loads] gives on them; elsewhere it is
    [None]. *)

Definition is_json_ws (c : ascii) : bool :=
  Ascii.eqb c " " || Ascii.eqb c "009" || Ascii.eqb c LF || Ascii.eqb c CR.

Fixpoint skip_ws (s : string) : string :=
  match s with
  | String c s' => if is_json_ws c then skip_ws s' else s
  | EmptyString => EmptyString
  end.

(** The rest of a string literal, the opening quote already read. *)
Fixpoint scan_string (s : string) : option (string * string) :=
  match s with
  | EmptyString => None
  | String c s' =>
      if Ascii.eqb c DQ then Some (EmptyString, s')
      else if Ascii.eqb c BSL then
        match s' with
        | String e s'' =>
            let esc :=
              if Ascii.eqb e DQ then Some DQ
              else if Ascii.eqb e BSL then Some BSL
              else if Ascii.eqb e "/" then Some "/"%char
              else if Ascii.eqb e "b" then Some "008"%char
              else if Ascii.eqb e "f" then Some "012"%char
              else if Ascii.eqb e "n" then Some LF
              else if Ascii.eqb e "r" then Some CR
              else if Ascii.eqb e "t" then Some "009"%char
              else None in
            match esc, scan_string s'' with
            | Some d, Some (body, rest) => Some (String d body, rest)
            | _, _ => None
            end
        | EmptyString => None
        end
      else if (nat_of_ascii c <? 32)%nat then None
      else
        match scan_string s' with
        | Some (body, rest) => Some (String c body, rest)
        | None => None
        end
  end.

Fixpoint scan_digits (acc : N) (s : string) : N * string :=
  match s with
  | String c s' =>
      if isdigit c
      then scan_digits (10 * acc + N.of_nat (nat_of_ascii c - 48)) s'
      else (acc, s)
  | EmptyString => (acc, s)
  end.

(** An integer literal: [0] or a digit run that does not start with [0].
    A fraction or an exponent after it is outside the fragment. *)
Definition scan_nat (s : string) : option (N * string) :=
  match s with
  | String c s' =>
      if isdigit c then
        let '(n, rest) :=
          if Ascii.eqb c "0" then (0%N, s') else scan_digits 0 s in
        match rest with
        | String d _ =>
            if Ascii.eqb d "." || Ascii.eqb d "e" || Ascii.eqb d "E"
            then None else Some (n, rest)
        | EmptyString => Some (n, rest)
        end
      else None
  | EmptyString => None
  end.

Definition scan_literal (s : string) : option (jvalue * string) :=
  if prefix "null" s then Some (JNull, drop 4 s)
  else if prefix "true" s then Some (JBool true, drop 4 s)
  else if prefix "false" s then Some (JBool false, drop 5 s)
  else
    match s with
    | String c s' =>
        if Ascii.eqb c "-" then
          match scan_nat s' with
          | Some (n, rest) => Some (JInt (- Z.of_N n), rest)
          | None => None
          end
        else
          match scan_nat s with
          | Some (n, rest) => Some (JInt (Z.of_N n), rest)
          | None => None
          end
    | EmptyString => None
    end.

(** One value at the head of [s], after white space; [fuel] bounds the
    nesting and the number of members read. *)
Fixpoint scan_value (fuel : nat) (s : string) : option (jvalue * string) :=
  match fuel with
  | O => None
  | S fuel' =>
      match skip_ws s with
      | String c s' =>
          if Ascii.eqb c DQ then
            match scan_string s' with
            | Some (body, rest) => Some (JStr body, rest)
            | None => None
            end
          else if Ascii.eqb c "[" then
            match skip_ws s' with
            | String d r =>
                if Ascii.eqb d "]" then Some (JList [], r)
                else scan_items fuel' [] s'
            | EmptyString => None
            end
          else if Ascii.eqb c "{" then
            match skip_ws s' with
            | String d r =>
                if Ascii.eqb d "}" then Some (JDict [], r)
                else scan_members fuel' [] s'
            | EmptyString => None
            end
          else scan_literal (String c s')
      | EmptyString => None
      end
  end

(** The items of a list, the first one at the head of [s]. *)
with scan_items (fuel : nat) (acc : list jvalue) (s : string)
  : option (jvalue * string) :=
  match fuel with
  | O => None
  | S fuel' =>
      match scan_value fuel' s with
      | Some (v, rest) =>
          match skip_ws rest with
          | String d r =>
              if Ascii.eqb d "]" then Some (JList (acc ++ [v]), r)
              else if Ascii.eqb d "," then scan_items fuel' (acc ++ [v]) r
              else None
          | EmptyString => None
          end
      | None => None
      end
  end

(** The members of an object, the first key at the head of [s]. *)
with scan_members (fuel : nat) (acc : list (string * jvalue)) (s : string)
  : option (jvalue * string) :=
  match fuel with
  | O => None
  | S fuel' =>
      match skip_ws s with
      | String q s1 =>
          if Ascii.eqb q DQ then
            match scan_string s1 with
            | Some (k, s2) =>
                match skip_ws s2 with
                | String colon s3 =>
                    if Ascii.eqb colon ":" then
                      match scan_value fuel' s3 with
                      | Some (v, rest) =>
                          match skip_ws rest with
                          | String d r =>
                              if Ascii.eqb d "}"
                              then Some (JDict (setitem k v acc), r)
                              else if Ascii.eqb d ","
                              then scan_members fuel' (setitem k v acc) r
                              else None
                          | EmptyString => None
                          end
                      | None => None
                      end
                    else None
                | EmptyString => None
                end
            | None => None
            end
          else None
      | EmptyString => None
      end
  end.

(** [json.loads(s)] on the fragment: one value between white space, and
    nothing after it. *)
Definition json_loads_flat (s : string) : option jvalue :=
  match scan_value (S (length s)) s with
  | Some (v, rest) =>
      match skip_ws rest with
      | EmptyString => Some v
      | _ => None
      end
  | None => None
  end.

End Json.

(** ** Functions that the two tools share word for word *)

Module Common.
Import PyStr.

(** [extract_preamble_postamble(text)]: the text before the first opening
    bracket, the text between it and the last closing bracket, and the text
    after that one. *)
Definition extract_preamble_postamble (text : string) : string * string * string :=
  match find "[" text, rfind "]" text with
  | Some start, Some end_ =>
      if (end_ <? start)%nat then (EmptyString, EmptyString, text)
      else (take start text, slice (S start) end_ text, drop (S end_) text)
  | _, _ => (EmptyString, EmptyString, text)
  end.

(** [strip_json_comments(text)] *)
Definition strip_json_comments (text : string) : string :=
  Re.sub_comments 0 true text.

(** [strip_trailing_commas(text)] *)
Definition strip_trailing_commas (text : string) : string :=
  Re.sub_trailing_commas 0 text.

(** The last write of both [main]s: a line feed when the postamble does not
    end with one. *)
Definition final_newline (postamble : string) : string :=
  if endswith (chr LF) postamble then EmptyString else chr LF.

End Common.

(** ** keybindings-remove.py *)

Module Remove.
Import PyStr Json Common.

(** A unit of [split_units]: the comment lines before the object, the lines
    of the object, the comma and comment lines after it. *)
Definition Unit : Type := string * string * string.

(** The first inner loop: the lines without an opening brace. *)
Fixpoint gather_comments (comments : string) (lines : list string)
  : string * list string :=
  match lines with
  | line :: rest =>
      if negb (has_char "{" line) then gather_comments (comments ++ line) rest
      else (comments, lines)
  | [] => (comments, [])
  end.

(** The second inner loop: the lines of the object, up to the line on which
    the count of open braces comes back to zero. *)
Fixpoint gather_object (obj_lines : string) (depth : Z) (started : bool)
  (lines : list string) : string * list string :=
  match lines with
  | [] => (obj_lines, [])
  | line :: rest =>
      let started := started || has_char "{" line in
      let depth :=
        if has_char "{" line then (depth + Z.of_nat (count "{" line))%Z
        else depth in
      let obj_lines := if started then obj_lines ++ line else obj_lines in
      if has_char "}" line then
        let depth := (depth - Z.of_nat (count "}" line))%Z in
        if (depth =? 0)%Z then (obj_lines, rest)
        else gather_object obj_lines depth started rest
      else gather_object obj_lines depth started rest
  end.

(** The test of the third inner loop. *)
Definition is_trailing (line : string) : bool :=
  let stripped := strip line in
  startswith "," stripped || (stripped =? EmptyString)
  || startswith "//" stripped || startswith "/*" stripped.

Fixpoint gather_trailing (trailing : string) (lines : list string)
  : string * list string :=
  match lines with
  | line :: rest =>
      if is_trailing line then gather_trailing (trailing ++ line) rest
      else (trailing, lines)
  | [] => (trailing, [])
  end.

(** The outer loop of [split_units] on the lines from index [i] on.  Every
    turn reads at least one line, so [fuel] turns are enough for [fuel]
    lines.  The second component is the value of [comments] when the loop
    ends: the lines that the [break] leaves out of every unit. *)
Fixpoint split_units_loop (fuel : nat) (lines : list string)
  : list Unit * string :=
  match fuel, lines with
  | O, _ => ([], EmptyString)
  | _, [] => ([], EmptyString)
  | S fuel', _ =>
      let '(comments, lines1) := gather_comments EmptyString lines in
      match lines1 with
      | [] => ([], comments)
      | _ =>
          let '(obj_lines, lines2) := gather_object EmptyString 0 false lines1 in
          let '(trailing, lines3) := gather_trailing EmptyString lines2 in
          let '(units, dropped) := split_units_loop fuel' lines3 in
          ((comments, obj_lines, trailing) :: units, dropped)
      end
  end.

(** [split_units(array_text)] *)
Definition split_units (array_text : string) : list Unit :=
  let lines := splitlines_keepends array_text in
  fst (split_units_loop (List.length lines) lines).

(** The comment lines after the last unit, which [split_units] gathers and
    does not return. *)
Definition split_units_left (array_text : string) : string :=
  let lines := splitlines_keepends array_text in
  snd (split_units_loop (List.length lines) lines).

Section Decoder.

Variable json_loads : string -> option jvalue.

(** The [try] block of [should_remove]: the parsed object, or [None] when
    [json.loads] raises. *)
Definition parse_object (obj_str : string) : option jvalue :=
  json_loads (strip_trailing_commas (strip_json_comments obj_str)).

(** [should_remove(obj_text, attr, val)]; the debug output goes to the
    error stream and is left out. *)
Definition should_remove (obj_text attr val : string) : bool :=
  match Re.search_object_lazy obj_text with
  | None => false
  | Some obj_str =>
      match parse_object obj_str with
      | None => false
      | Some obj =>
          match get obj attr (JStr EmptyString) with
          | Some attr_val => contains val (py_str attr_val)
          | None => false
          end
      end
  end.

(** The loop of [main] over the units. *)
Fixpoint write_units (attr val : string) (units : list Unit) : string :=
  match units with
  | [] => EmptyString
  | (comments, obj, trailing) :: units' =>
      if should_remove obj attr val then write_units attr val units'
      else comments ++ obj ++ trailing ++ write_units attr val units'
  end.

(** [main()] with [sys.argv[1:] = [attr, val]] and [raw] on standard input:
    the text written on standard output. *)
Definition main (attr val raw : string) : string :=
  let '(preamble, array_text, postamble) := extract_preamble_postamble raw in
  let units := split_units array_text in
  preamble ++ "[" ++ write_units attr val units ++ "]" ++ postamble
  ++ final_newline postamble.

End Decoder.

End Remove.

(** ** keybindings-sort.py *)

Module Sort.
Import PyStr Json Common.

(** The state of the loop of [group_objects_with_comments]. *)
Record gstate : Type := GState {
  groups : list (string * string);
  comments : string;
  buf : string;
  depth : Z;
  in_obj : bool
}.

Definition brace_balance (s : string) : Z :=
  (Z.of_nat (count "{" s) - Z.of_nat (count "}" s))%Z.

(** One turn of the loop, on [line]. *)
Definition group_step (st : gstate) (line : string) : gstate :=
  let stripped := strip line in
  if negb (in_obj st) then
    if has_char "{" stripped then
      GState (groups st) (comments st) line (brace_balance stripped) true
    else
      GState (groups st) (comments st ++ line) (buf st) (depth st) (in_obj st)
  else
    let buf' := buf st ++ line in
    let depth' := (depth st + brace_balance line)%Z in
    if (depth' =? 0)%Z then
      GState (groups st ++ [(comments st, buf')]) EmptyString EmptyString
             depth' false
    else
      GState (groups st) (comments st) buf' depth' (in_obj st).

(** [group_objects_with_comments(array_text)]: the groups (comments, object)
    and the trailing comments. *)
Definition group_objects_with_comments (array_text : string)
  : list (string * string) * string :=
  let st :=
    fold_left group_step (splitlines_keepends array_text)
      (GState [] EmptyString EmptyString 0 false) in
  (groups st, comments st).

(** An element of a natural key: an [int] or a lower-cased [str]. *)
Inductive tok : Type :=
| TInt (n : N)
| TStr (s : string).

(** [text.isdigit()] *)
Fixpoint all_digits (s : string) : bool :=
  match s with
  | EmptyString => true
  | String c s' => isdigit c && all_digits s'
  end.

Definition str_isdigit (s : string) : bool :=
  match s with
  | EmptyString => false
  | _ => all_digits s
  end.

(** The number that a digit run writes. *)
Fixpoint int_from (acc : N) (s : string) : N :=
  match s with
  | EmptyString => acc
  | String c s' => int_from (10 * acc + N.of_nat (nat_of_ascii c - 48)) s'
  end.

Definition int_of_digits (s : string) : N := int_from 0 s.

(** [sys.int_max_str_digits], as the interpreter sets it. *)
Definition int_max_str_digits : nat := 4300.

(** [int(text)] on a digit run: [ValueError] when the run has more digits,
    leading zeros counted, than the limit. *)
Definition py_int (text : string) : option N :=
  if (length text <=? int_max_str_digits)%nat then Some (int_of_digits text)
  else None.

(** One element of the list of [natural_key]. *)
Definition key_element (text : string) : option tok :=
  if str_isdigit text then option_map TInt (py_int text)
  else Some (TStr (lower text)).

(** The list comprehension of [natural_key]: the elements from left to
    right, the first exception ends it. *)
Fixpoint key_elements (pieces : list string) : option (list tok) :=
  match pieces with
  | [] => Some []
  | text :: rest =>
      match key_element text with
      | None => None
      | Some e => option_map (cons e) (key_elements rest)
      end
  end.

(** [natural_key(s)]; [None] when [int] raises [ValueError]. *)
Definition natural_key (s : string) : option (list tok) :=
  key_elements (Re.split_on_digits s).

(** Python's [==] and [<] on the elements; [<] between an [int] and a [str]
    raises [TypeError]. *)
Definition tok_eqb (a b : tok) : bool :=
  match a, b with
  | TInt x, TInt y => N.eqb x y
  | TStr x, TStr y => String.eqb x y
  | _, _ => false
  end.

Definition tok_lt (a b : tok) : option bool :=
  match a, b with
  | TInt x, TInt y => Some (N.ltb x y)
  | TStr x, TStr y => Some (String.ltb x y)
  | _, _ => None
  end.

(** Python's [==] and [<] on lists: [<] is decided by the first position at
    which the elements differ, and by the lengths when there is none. *)
Fixpoint list_eqb (a b : list tok) : bool :=
  match a, b with
  | [], [] => true
  | x :: a', y :: b' => tok_eqb x y && list_eqb a' b'
  | _, _ => false
  end.

Fixpoint list_lt (a b : list tok) : option bool :=
  match a, b with
  | [], [] => Some false
  | [], _ :: _ => Some true
  | _ :: _, [] => Some false
  | x :: a', y :: b' => if tok_eqb x y then list_lt a' b' else tok_lt x y
  end.

(** A sort key: a natural key, then a natural key or (for an object that
    does not parse) a [str], then a [str]. *)
Definition sort_key : Type := list tok * (list tok + string) * string.

Definition failed_key : sort_key := ([], inr EmptyString, EmptyString).

Definition mid_eqb (a b : list tok + string) : bool :=
  match a, b with
  | inl x, inl y => list_eqb x y
  | inr x, inr y => String.eqb x y
  | _, _ => false
  end.

Definition mid_lt (a b : list tok + string) : option bool :=
  match a, b with
  | inl x, inl y => list_lt x y
  | inr x, inr y => Some (String.ltb x y)
  | _, _ => None
  end.

(** Python's [<] on the key tuples. *)
Definition key_lt (a b : sort_key) : option bool :=
  let '(a1, a2, a3) := a in
  let '(b1, b2, b3) := b in
  if negb (list_eqb a1 b1) then list_lt a1 b1
  else if negb (mid_eqb a2 b2) then mid_lt a2 b2
  else Some (String.ltb a3 b3).

(** [sorted(groups, key=...)]: the keys are computed once, the sort is
    stable and compares with [<] only; an element goes after the elements
    that are not greater than it. *)
Fixpoint insert_by_key {A : Type} (x : sort_key * A) (l : list (sort_key * A))
  : option (list (sort_key * A)) :=
  match l with
  | [] => Some [x]
  | y :: l' =>
      match key_lt (fst x) (fst y) with
      | None => None
      | Some true => Some (x :: y :: l')
      | Some false => option_map (cons y) (insert_by_key x l')
      end
  end.

Definition sorted {A : Type} (key : A -> sort_key) (l : list A) : option (list A) :=
  option_map (map snd)
    (fold_left
       (fun acc x =>
          match acc with
          | Some done => insert_by_key (key x, x) done
          | None => None
          end)
       l (Some [])).

(** [object_has_trailing_comma(obj_text)]: the loop over the reversed
    lines. *)
Fixpoint trailing_comma_scan (found_closing : bool) (lines : list string) : bool :=
  match lines with
  | [] => false
  | line :: rest =>
      let stripped := strip line in
      if stripped =? EmptyString then trailing_comma_scan found_closing rest
      else if negb found_closing && endswith "}" stripped
      then trailing_comma_scan true rest
      else if found_closing then
        if startswith "," stripped then true
        else if negb (startswith "//" stripped) && negb (startswith "/*" stripped)
        then false
        else trailing_comma_scan found_closing rest
      else trailing_comma_scan found_closing rest
  end.

Definition object_has_trailing_comma (obj_text : string) : bool :=
  trailing_comma_scan false (rev (splitlines (rstrip obj_text))).

(** The object as [main] writes it: right-stripped, and without the commas
    that follow its last closing brace. *)
Definition obj_out_of (obj : string) : string :=
  let obj_out := rstrip obj in
  match rfind "}" obj_out with
  | Some idx =>
      take (S idx) obj_out ++ Re.sub_leading_commas (drop (S idx) obj_out)
  | None => obj_out
  end.

(** The duplicate marker of [main]. *)
Definition duplicate_marker (key_val when_val : string) : string :=
  "// DUPLICATE key: " ++ repr_str key_val ++ " when: " ++ repr_str when_val
  ++ chr LF.

(** [pair_id in seen] *)
Definition seen_mem (pair_id : string * string) (seen : list (string * string)) : bool :=
  existsb (fun p => (fst p =? fst pair_id) && (snd p =? snd pair_id)) seen.

Section Decoder.

Variable json_loads : string -> option jvalue.

(** [extract_sort_keys(obj_text, primary)]; every exception of the [try]
    block, that of [natural_key] too, gives the key of a failure. *)
Definition extract_sort_keys (obj_text primary : string) : sort_key :=
  match Re.search_object_greedy obj_text with
  | None => failed_key
  | Some obj_str =>
      let clean := strip_trailing_commas (strip_json_comments obj_str) in
      match json_loads clean with
      | None => failed_key
      | Some obj =>
          match get obj "key" (JStr EmptyString),
                get obj "when" (JStr EmptyString),
                get obj "_comment" (JStr EmptyString) with
          | Some k, Some w, Some c =>
              let key_val := py_str k in
              let when_val := py_str w in
              let comment_val := py_str c in
              if primary =? "when"
              then
                match natural_key when_val, natural_key key_val with
                | Some first, Some second => (first, inl second, comment_val)
                | _, _ => failed_key
                end
              else
                match natural_key key_val, natural_key when_val with
                | Some first, Some second => (first, inl second, comment_val)
                | _, _ => failed_key
                end
          | _, _, _ => failed_key
          end
      end
  end.

(** [extract_key_when(obj_text)]; every exception of the [try] block gives
    the pair of two empty strings. *)
Definition extract_key_when (obj_text : string) : string * string :=
  match Re.search_object_greedy obj_text with
  | None => (EmptyString, EmptyString)
  | Some obj_str =>
      let clean := strip_trailing_commas (strip_json_comments obj_str) in
      match json_loads clean with
      | None => (EmptyString, EmptyString)
      | Some obj =>
          match get obj "key" (JStr EmptyString),
                get obj "when" (JStr EmptyString) with
          | Some k, Some w => (py_str k, py_str w)
          | _, _ => (EmptyString, EmptyString)
          end
      end
  end.

(** One turn of the loop of [main]: what it writes for a group, given the
    pairs seen so far. *)
Definition write_group (is_last : bool) (seen : list (string * string))
  (g : string * string) : string :=
  let '(comments, obj) := g in
  let '(key_val, when_val) := extract_key_when obj in
  let comments :=
    if seen_mem (key_val, when_val) seen
    then comments ++ duplicate_marker key_val when_val
    else comments in
  let obj_out := obj_out_of obj in
  comments ++ obj_out
  ++ (if negb is_last && negb (object_has_trailing_comma obj_out)
      then "," else EmptyString)
  ++ chr LF.

(** The loop of [main] over the sorted groups. *)
Fixpoint write_groups (seen : list (string * string))
  (sorted_groups : list (string * string)) : string :=
  match sorted_groups with
  | [] => EmptyString
  | g :: rest =>
      write_group (match rest with [] => true | _ => false end) seen g
      ++ write_groups (extract_key_when (snd g) :: seen) rest
  end.

(** [main()] with [--primary primary] and [raw] on standard input: the text
    written on standard output, or [None] when the sort raises. *)
Definition main (primary raw : string) : option string :=
  let '(preamble, array_text, postamble) := extract_preamble_postamble raw in
  let '(groups, trailing_comments) := group_objects_with_comments array_text in
  match sorted (fun pair => extract_sort_keys (snd pair) primary) groups with
  | None => None
  | Some sorted_groups =>
      Some (preamble ++ "[" ++ write_groups [] sorted_groups
            ++ trailing_comments ++ "]" ++ postamble ++ final_newline postamble)
  end.

End Decoder.

End Sort.

(** ** Closed instances for the examples *)

Module Examples.
Import PyStr.

(** The texts of the examples are written on one line: a backquote stands
    for the double quote and a vertical bar for the line feed. *)
Fixpoint txt (s : string) : string :=
  match s with
  | EmptyString => EmptyString
  | String c s' =>
      String (if Ascii.eqb c "`" then DQ else if Ascii.eqb c "|" then LF else c)
             (txt s')
  end.

Definition remove_main : string -> string -> string -> string :=
  Remove.main Json.json_loads_flat.

Definition sort_main : string -> string -> option string :=
  Sort.main Json.json_loads_flat.

(** A document of two records, with a line before the array. *)
Definition two_units : string :=
  txt "// pre|[|  {|    `key`: `a`|  },|  {|    `key`: `b`|  }|]|".

End Examples.

(** ** The notions of the specification *)

Module Spec.
Import PyStr Json Common.

(** The text has a bracketed span: a first opening bracket and, after it, a
    last closing bracket. *)
Definition has_array (text : string) : bool :=
  match find "[" text, rfind "]" text with
  | Some start, Some end_ => negb (end_ <? start)%nat
  | _, _ => false
  end.

Definition preamble_of (text : string) : string :=
  fst (fst (extract_preamble_postamble text)).

Definition array_of (text : string) : string :=
  snd (fst (extract_preamble_postamble text)).

Definition postamble_of (text : string) : string :=
  snd (extract_preamble_postamble text).

(** The text of a unit of the removal tool. *)
Definition unit_text (u : Remove.Unit) : string :=
  let '(comments, obj, trailing) := u in comments ++ obj ++ trailing.

Definition unit_object (u : Remove.Unit) : string := snd (fst u).

Section Decoder.

Variable json_loads : string -> option jvalue.

(** The record of an object text: the fields of the object that the
    removal tool parses out of it. *)
Definition record_of (obj_text : string) : option (list (string * jvalue)) :=
  match Re.search_object_lazy obj_text with
  | Some obj_str =>
      match Remove.parse_object json_loads obj_str with
      | Some (JDict d) => Some d
      | _ => None
      end
  | None => None
  end.

(** The units that the removal keeps. *)
Definition survivors (attr val array_text : string) : list Remove.Unit :=
  filter (fun u => negb (Remove.should_remove json_loads (unit_object u) attr val))
         (Remove.split_units array_text).

End Decoder.

(** A text without a digit, a digit run, and a text that does not start
    with a digit. *)
Fixpoint no_digit (s : string) : bool :=
  match s with
  | EmptyString => true
  | String c s' => negb (isdigit c) && no_digit s'
  end.

Definition digit_run (s : string) : bool := Sort.str_isdigit s.

Definition no_leading_digit (s : string) : bool :=
  match s with
  | EmptyString => true
  | String c _ => negb (isdigit c)
  end.

(** The pieces of a split: texts without digits at the even places, digit
    runs at the odd places, and no empty text between two runs. *)
Fixpoint alternating (first : bool) (pieces : list string) : bool :=
  match pieces with
  | [] => false
  | [text] => no_digit text
  | text :: run :: rest =>
      no_digit text && digit_run run
      && (first || negb (text =? EmptyString))
      && alternating false rest
  end.

(** The key of the pieces of a split: the texts in lower case, the digit
    runs as numbers. *)
Fixpoint key_of_pieces (pieces : list string) : list Sort.tok :=
  match pieces with
  | [] => []
  | [text] => [Sort.TStr (lower text)]
  | text :: run :: rest =>
      Sort.TStr (lower text) :: Sort.TInt (Sort.int_of_digits run)
      :: key_of_pieces rest
  end.

(** The kinds of the elements of a key: a [str] at the even places and an
    [int] at the odd places. *)
Fixpoint alt_kinds (expect_str : bool) (key : list Sort.tok) : bool :=
  match key with
  | [] => true
  | Sort.TStr _ :: key' => expect_str && alt_kinds false key'
  | Sort.TInt _ :: key' => negb expect_str && alt_kinds true key'
  end.



(** The key that [natural_key] gives when no conversion raises. *)
Definition key_of_text (s : string) : list Sort.tok :=
  key_of_pieces (Re.split_on_digits s).

(** No more than [limit] digits in a row; [run] digits have just been
    read. *)
Fixpoint digits_in_a_row (limit run : nat) (s : string) : bool :=
  match s with
  | EmptyString => true
  | String c s' =>
      if isdigit c
      then (S run <=? limit)%nat && digits_in_a_row limit (S run) s'
      else digits_in_a_row limit 0 s'
  end.

(** No digit run of the text is longer than the limit of [int]. *)
Definition short_runs (s : string) : bool :=
  digits_in_a_row Sort.int_max_str_digits 0 s.

(** A piece that is a text, or a digit run that [int] converts. *)
Definition fits (text : string) : bool :=
  negb (Sort.str_isdigit text)
  || (length text <=? Sort.int_max_str_digits)%nat.

(** The keys that [extract_sort_keys] builds. *)
Definition built_key (k : Sort.sort_key) : Prop :=
  k = Sort.failed_key
  \/ exists a b c, k = (key_of_text a, inl (key_of_text b), c).

End Spec.

(** ** keybindings-gigachad.py: the list of bindings *)

Module Gigachad.
Import PyStr.

Definition LEFT_HAND_KEYS : list string :=
  ["alt"; "alt+shift"; "ctrl"; "ctrl+alt"; "ctrl+shift"; "ctrl+shift+alt"; "shift"].

Definition RIGHT_HAND_KEYS : list string :=
  ["h"; "left"; "j"; "down"; "k"; "up"; "l"; "right"; "+"; "="; "-"; "_";
   "["; "]"; "{"; "}"; "pageup"; "pagedown"].

Definition WHEN_FOCUSED : list string :=
  ["sideBarFocus"; "editorFocus"; "panelFocus"; "auxiliaryBarFocus"].

Definition WHEN_VISIBLE : list string :=
  ["sideBarVisible"; "editorIsOpen"; "panelVisible"; "auxiliaryBarVisible"].

(** The set [ARROW_KEYS]; only membership is asked of it. *)
Definition ARROW_KEYS : list string :=
  ["left"; "down"; "up"; "right"; "pageup"; "pagedown"].

(** [x in l] *)
Definition mem (x : string) (l : list string) : bool :=
  existsb (fun y => y =? x) l.

(** [itertools.combinations(l, n)], in its order. *)
Fixpoint combinations (n : nat) (l : list string) : list (list string) :=
  match n, l with
  | O, _ => [[]]
  | S _, [] => []
  | S n', x :: l' => map (cons x) (combinations n' l') ++ combinations n l'
  end.

(** [sep.join(parts)] *)
Fixpoint sep_join (sep : string) (parts : list string) : string :=
  match parts with
  | [] => EmptyString
  | [p] => p
  | p :: rest => p ++ sep ++ sep_join sep rest
  end.

(** [s.replace(old, new)] for a non-empty [old]: the occurrences of [old]
    from the left, none overlapping another.  [skip] characters of the
    occurrence just replaced are still to be passed. *)
Fixpoint replace_from (skip : nat) (old new s : string) : string :=
  match s with
  | EmptyString => EmptyString
  | String c s' =>
      match skip with
      | S k => replace_from k old new s'
      | O =>
          if prefix old s then new ++ replace_from (length old - 1) old new s'
          else String c (replace_from 0 old new s')
      end
  end.

Definition replace (old new s : string) : string := replace_from 0 old new s.

(** One element of [keybindings]. *)
Record binding : Type := Binding {
  b_gigachad : string;
  b_key : string;
  b_command : string;
  b_when : string
}.

(** The list [visible_permutations]: no condition, then the combinations
    of one to four of the [WHEN_VISIBLE] conditions. *)
Definition visible_permutations : list (list string) :=
  [[]] ++ flat_map (fun n => combinations n WHEN_VISIBLE)
                   (seq 1 (List.length WHEN_VISIBLE)).

(** The body of the inner loop: the binding appended for [left], [right],
    [when_focused] and [visible_combo]; [dt_str] is the time stamp. *)
Definition make_binding (dt_str left right when_focused : string)
  (visible_combo : list string) : binding :=
  let when_parts := when_focused :: visible_combo in
  let when_str := sep_join " && " when_parts in
  let prefix := "config.gigachad.enabled" in
  let prefix := prefix ++ " && config.gigachad." ++ left in
  let prefix :=
    if mem right ARROW_KEYS then prefix ++ " && config.gigachad.arrows"
    else prefix in
  let when_str :=
    match when_str with
    | EmptyString => prefix
    | _ => prefix ++ " && " ++ when_str
    end in
  let key_combo :=
    match left with
    | EmptyString => right
    | _ => left ++ "+" ++ right
    end in
  let key_combo := replace "++" "+" key_combo in
  let visible_id :=
    match visible_combo with
    | [] => "none"
    | _ => sep_join "_" visible_combo
    end in
  let gigachad_str := key_combo ++ "-gigachad-" ++ dt_str in
  let command_str :=
    replace "+" "_" left ++ "." ++ right ++ "." ++ when_focused ++ "."
    ++ visible_id ++ "." ++ gigachad_str in
  Binding gigachad_str key_combo command_str when_str.

(** [left_keys] and [right_keys] for the arguments [args]. *)
Definition left_keys (args : list string) : list string :=
  match args with
  | a :: _ => if mem a LEFT_HAND_KEYS then [a] else LEFT_HAND_KEYS
  | [] => LEFT_HAND_KEYS
  end.

Definition right_keys (args : list string) : list string :=
  match args with
  | _ :: b :: _ => if mem b RIGHT_HAND_KEYS then [b] else RIGHT_HAND_KEYS
  | _ => RIGHT_HAND_KEYS
  end.

(** The list [keybindings] when the loops end. *)
Definition keybindings (args : list string) (dt_str : string) : list binding :=
  flat_map (fun left =>
    flat_map (fun right =>
      flat_map (fun when_focused =>
        map (make_binding dt_str left right when_focused) visible_permutations)
        WHEN_FOCUSED)
      (right_keys args))
    (left_keys args).

End Gigachad.

(** ** Notions for the further properties *)

Module Laws.
Import PyStr Json Common.

(** The state in which the loop of [group_objects_with_comments] ends. *)
Definition group_loop (array_text : string) : Sort.gstate :=
  fold_left Sort.group_step (splitlines_keepends array_text)
    (Sort.GState [] EmptyString EmptyString 0 false).

(** The text of a group of the sort tool. *)
Definition group_text (g : string * string) : string := fst g ++ snd g.

(** A text on one line: no character ends a line. *)
Fixpoint one_line (s : string) : bool :=
  match s with
  | EmptyString => true
  | String c s' => negb (islinebreak c) && one_line s'
  end.

(** The inside of a string literal: no double quote except after a
    backslash, and no backslash left alone at the end. *)
Fixpoint literal_body (s : string) : bool :=
  match s with
  | EmptyString => true
  | String c s' =>
      if Ascii.eqb c DQ then false
      else if Ascii.eqb c BSL then
        match s' with
        | EmptyString => false
        | String _ s'' => literal_body s''
        end
      else literal_body s'
  end.

(** A text of white space only. *)
Fixpoint all_space (s : string) : bool :=
  match s with
  | EmptyString => true
  | String c s' => isspace c && all_space s'
  end.

(** A line with its terminator: characters that end no line, then LF,
    CR LF, CR, VT, FF, FS, GS or RS, and nothing after. *)
Fixpoint complete_line (l : string) : bool :=
  match l with
  | EmptyString => false
  | String c l' =>
      if Ascii.eqb c CR then (l' =? EmptyString) || (l' =? chr LF)
      else if islinebreak c then l' =? EmptyString
      else complete_line l'
  end.

(** A last line without terminator. *)
Definition open_line (l : string) : bool :=
  one_line l && negb (l =? EmptyString).

Fixpoint ends_cr (l : string) : bool :=
  match l with
  | EmptyString => false
  | String c EmptyString => Ascii.eqb c CR
  | String _ l' => ends_cr l'
  end.

Definition starts_lf (s : string) : bool :=
  match s with
  | String c _ => Ascii.eqb c LF
  | EmptyString => false
  end.

(** The lines of a text as [splitlines(keepends=True)] gives them: every
    line but the last is complete, the last is complete or open, and no
    line ends with a CR that the LF of the next line would complete. *)
Fixpoint lines_wf (ls : list string) : bool :=
  match ls with
  | [] => true
  | l :: rest =>
      match rest with
      | [] => complete_line l || open_line l
      | l' :: _ => complete_line l && negb (ends_cr l && starts_lf l')
      end && lines_wf rest
  end.

(** A unit of the removal tool as lines: the comment lines, the object
    lines, the trailing lines. *)
Definition LUnit : Type := list string * list string * list string.

Definition lines_of (u : LUnit) : list string :=
  let '(cl, ol, tl) := u in (cl ++ ol ++ tl)%list.

Definition to_unit (u : LUnit) : Remove.Unit :=
  let '(cl, ol, tl) := u in (join cl, join ol, join tl).

Definition flatten (us : list LUnit) : list string :=
  List.concat (map lines_of us).

(** The first line of a unit does not look like a trailing line. *)
Definition head_ok (u : LUnit) : Prop :=
  match lines_of u with
  | l :: _ => Remove.is_trailing l = false
  | [] => False
  end.

(** Object lines that start with a brace and on whose last line the count
    of open braces comes back to zero, whatever follows; and object lines
    that start with a brace and are read to the end of the text. *)
Definition closed_obj (ol : list string) : Prop :=
  match ol with
  | l :: _ => has_char "{" l = true
  | [] => False
  end
  /\ forall rest,
       Remove.gather_object EmptyString 0 false (ol ++ rest)%list = (join ol, rest).

Definition last_obj (ol : list string) : Prop :=
  match ol with
  | l :: _ => has_char "{" l = true
  | [] => False
  end
  /\ Remove.gather_object EmptyString 0 false ol = (join ol, []).

(** Units, as lines, that the loop of [split_units] finds again when their
    lines are read one after the other. *)
Inductive seg : list LUnit -> Prop :=
| seg_nil : seg []
| seg_last (cl ol : list string) :
    forallb (fun l => negb (has_char "{" l)) cl = true ->
    last_obj ol ->
    seg [(cl, ol, [])]
| seg_cons (cl ol tl : list string) (us : list LUnit) :
    forallb (fun l => negb (has_char "{" l)) cl = true ->
    closed_obj ol ->
    forallb Remove.is_trailing tl = true ->
    Forall head_ok us ->
    seg us ->
    seg ((cl, ol, tl) :: us).

(** Python's [==] on the key tuples. *)
Definition key_eqb (a b : Sort.sort_key) : bool :=
  let '(a1, a2, a3) := a in
  let '(b1, b2, b3) := b in
  Sort.list_eqb a1 b1 && Sort.mid_eqb a2 b2 && (a3 =? b3).

(** [g] is written no later than [h] would ask for: the key of [h] is not
    less than the key of [g]. *)
Definition in_order {A : Type} (key : A -> Sort.sort_key) (g h : A) : Prop :=
  Sort.key_lt (key h) (key g) = Some false.

(** The state of [sorted] between two insertions: the elements with their
    keys, in order. *)
Definition ready {A : Type} (key : A -> Sort.sort_key)
  (done : list (Sort.sort_key * A)) : Prop :=
  Forall (fun p => fst p = key (snd p)) done
  /\ StronglySorted (in_order fst) done.

Section Decoder.

Variable json_loads : string -> option jvalue.

(** The key of a group for the sort. *)
Definition group_key (primary : string) (pair : string * string) : Sort.sort_key :=
  Sort.extract_sort_keys json_loads (snd pair) primary.

End Decoder.

End Laws.

(** ** Closed instances for the further properties *)

Module Instances.
Import Examples.

Definition record_a : string * string := (EmptyString, txt "{|`key`: `a`|}|").
Definition record_b : string * string := (EmptyString, txt "{|`key`: `b`|}|").
Definition broken_1 : string * string := (EmptyString, txt "{|bad|}|").
Definition broken_2 : string * string := (EmptyString, txt "{|worse|}|").

(** An array on one line. *)
Definition compact : string := txt "// pre|[{`key`: `a`}, {`key`: `b`}]|".



End Instances.

(** * Properties *)

(** ** Texts *)

Section StringFacts.
Import PyStr.

Lemma append_nil_r (s : string) : s ++ EmptyString = s.
Proof. induction s as [|c s IH]; simpl; [reflexivity | now rewrite IH]. Qed.

Lemma append_assoc (a b c : string) : (a ++ b) ++ c = a ++ (b ++ c).
Proof. induction a as [|x a IH]; simpl; [reflexivity | now rewrite IH]. Qed.

Lemma length_append (a b : string) : length (a ++ b) = length a + length b.
Proof. induction a as [|x a IH]; simpl; [reflexivity | now rewrite IH]. Qed.

Lemma take_drop (n : nat) (s : string) : take n s ++ drop n s = s.
Proof.
  revert n; induction s as [|c s IH]; intros [|n]; simpl; try reflexivity.
  now rewrite IH.
Qed.

Lemma take_append (p r : string) : take (length p) (p ++ r) = p.
Proof. induction p as [|c p IH]; simpl; [now destruct r | now rewrite IH]. Qed.

Lemma drop_append (p r : string) : drop (length p) (p ++ r) = r.
Proof. induction p as [|c p IH]; simpl; [now destruct r | exact IH]. Qed.

Lemma has_char_append (c : ascii) (a b : string) :
  has_char c (a ++ b) = has_char c a || has_char c b.
Proof.
  induction a as [|x a IH]; simpl; [reflexivity|].
  now rewrite IH, orb_assoc.
Qed.

Lemma find_none (c : ascii) (s : string) :
  find c s = None <-> has_char c s = false.
Proof.
  induction s as [|d s IH]; simpl; [tauto|].
  destruct (Ascii.eqb d c); simpl; [split; discriminate|].
  destruct (find c s); [split; [discriminate | intros H; apply IH in H; discriminate]|].
  split; intros _; [now apply IH | reflexivity].
Qed.

Lemma rfind_none (c : ascii) (s : string) :
  rfind c s = None <-> has_char c s = false.
Proof.
  induction s as [|d s IH]; simpl; [tauto|].
  destruct (rfind c s) as [i|].
  - split; [discriminate|]. intros H. apply orb_false_iff in H as [_ H].
    apply IH in H. discriminate.
  - destruct (Ascii.eqb d c); simpl; [split; discriminate|].
    split; intros _; [now apply IH | reflexivity].
Qed.

(** [find] cuts the text at the first occurrence. *)
Lemma find_some (c : ascii) (s : string) (i : nat) :
  find c s = Some i ->
  s = take i s ++ String c (drop (S i) s)
  /\ has_char c (take i s) = false /\ length (take i s) = i.
Proof.
  revert i; induction s as [|d s IH]; simpl; intros i H; [discriminate|].
  destruct (Ascii.eqb_spec d c) as [->|Hdc].
  - injection H as <-. simpl. destruct s; auto.
  - destruct (find c s) as [k|]; [|discriminate]. injection H as <-.
    destruct (IH k eq_refl) as (E & Hn & Hl). simpl.
    rewrite <- E, Hn, Hl.
    destruct (Ascii.eqb_spec d c); [contradiction|]. auto.
Qed.

(** [rfind] cuts the text at the last occurrence. *)
Lemma rfind_some (c : ascii) (s : string) (j : nat) :
  rfind c s = Some j ->
  s = take j s ++ String c (drop (S j) s)
  /\ has_char c (drop (S j) s) = false /\ length (take j s) = j.
Proof.
  revert j; induction s as [|d s IH]; simpl; intros j H; [discriminate|].
  destruct (rfind c s) as [k|] eqn:Hr.
  - injection H as <-. destruct (IH k eq_refl) as (E & Hn & Hl). simpl.
    rewrite <- E, Hl. auto.
  - destruct (Ascii.eqb_spec d c) as [->|Hdc]; [|discriminate].
    injection H as <-. simpl. apply rfind_none in Hr.
    destruct s; auto.
Qed.

(** The first occurrence after a text without the character. *)
Lemma find_append (c : ascii) (p r : string) :
  has_char c p = false -> find c (p ++ String c r) = Some (length p).
Proof.
  induction p as [|d p IH]; simpl; intros H.
  - now rewrite Ascii.eqb_refl.
  - apply orb_false_iff in H as [Hd Hp]. now rewrite Hd, (IH Hp).
Qed.

(** The last occurrence before a text without the character. *)
Lemma rfind_append (c : ascii) (p r : string) :
  has_char c r = false -> rfind c (p ++ String c r) = Some (length p).
Proof.
  intros H. induction p as [|d p IH]; simpl.
  - apply rfind_none in H. now rewrite H, Ascii.eqb_refl.
  - now rewrite IH.
Qed.

(** The lines of a text, put together again, are the text. *)
Lemma join_splitlines_from (n : nat) :
  forall s cur, length s <= n -> join (splitlines_from cur s) = cur ++ s.
Proof.
  induction n as [|n IH]; intros [|c s] cur Hn; simpl in Hn; try lia.
  - destruct cur; simpl; [reflexivity | now rewrite !append_nil_r].
  - destruct cur; simpl; [reflexivity | now rewrite !append_nil_r].
  - cbn [splitlines_from]. destruct (Ascii.eqb c CR) eqn:Ec.
    + apply Ascii.eqb_eq in Ec as ->.
      destruct s as [|d s'].
      * simpl. now rewrite append_assoc.
      * simpl in Hn.
        destruct (Ascii.eqb d LF) eqn:Ed; cbn [join]; rewrite IH by (simpl; lia).
        -- apply Ascii.eqb_eq in Ed as ->. now rewrite append_assoc.
        -- now rewrite append_assoc.
    + destruct (islinebreak c); cbn [join]; rewrite IH by lia;
        now rewrite append_assoc.
Qed.

Lemma join_splitlines (s : string) : join (splitlines_keepends s) = s.
Proof. exact (join_splitlines_from (length s) s EmptyString (le_n _)). Qed.

End StringFacts.

(** ** The unit segmenter of the removal tool *)

Section SplitUnits.
Import PyStr Common Spec.

Lemma gather_comments_spec (lines : list string) :
  forall acc comments rest,
    Remove.gather_comments acc lines = (comments, rest) ->
    comments ++ join rest = acc ++ join lines
    /\ List.length rest <= List.length lines
    /\ match rest with
       | [] => True
       | line :: _ => has_char "{" line = true
       end.
Proof.
  induction lines as [|line lines IH]; simpl; intros acc comments rest H.
  - injection H as <- <-. auto.
  - destruct (has_char "{" line) eqn:E; simpl in H.
    + injection H as <- <-. simpl. auto.
    + apply IH in H as (H1 & H2 & H3). rewrite H1, append_assoc. auto.
Qed.

Lemma gather_object_spec (lines : list string) :
  forall acc depth obj rest,
    Remove.gather_object acc depth true lines = (obj, rest) ->
    obj ++ join rest = acc ++ join lines
    /\ List.length rest <= List.length lines.
Proof.
  induction lines as [|line lines IH]; simpl; intros acc depth obj rest H.
  - injection H as <- <-. auto.
  - destruct (has_char "}" line);
      [destruct (Z.eqb _ 0); [injection H as <- <-; simpl; rewrite append_assoc; auto|]|];
      apply IH in H as (H1 & H2); rewrite H1, append_assoc; auto.
Qed.

(** The object loop starts on a line with an opening brace and takes it. *)
Lemma gather_object_head (line : string) (lines : list string) obj rest :
  has_char "{" line = true ->
  Remove.gather_object EmptyString 0 false (line :: lines) = (obj, rest) ->
  obj ++ join rest = line ++ join lines
  /\ List.length rest <= List.length lines.
Proof.
  intros Hb H. simpl in H. rewrite Hb in H. simpl in H.
  destruct (has_char "}" line);
    [destruct (Z.eqb _ 0); [injection H as <- <-; auto|]|];
    apply gather_object_spec in H as (H1 & H2); auto.
Qed.

Lemma gather_trailing_spec (lines : list string) :
  forall acc trailing rest,
    Remove.gather_trailing acc lines = (trailing, rest) ->
    trailing ++ join rest = acc ++ join lines
    /\ List.length rest <= List.length lines.
Proof.
  induction lines as [|line lines IH]; simpl; intros acc trailing rest H.
  - injection H as <- <-. auto.
  - destruct (Remove.is_trailing line).
    + apply IH in H as (H1 & H2). rewrite H1, append_assoc. auto.
    + injection H as <- <-. auto.
Qed.

(** The units and the comments left after the last of them are the lines:
    the loop loses no text before its [break]. *)
Lemma split_units_loop_join (fuel : nat) :
  forall lines,
    List.length lines <= fuel ->
    join (map unit_text (fst (Remove.split_units_loop fuel lines)))
    ++ snd (Remove.split_units_loop fuel lines) = join lines.
Proof.
  induction fuel as [|fuel IH]; intros [|l0 lines0] Hf; simpl in Hf; try lia;
    try reflexivity.
  cbn [Remove.split_units_loop].
  destruct (Remove.gather_comments EmptyString (l0 :: lines0))
    as [comments lines1] eqn:E1.
  apply gather_comments_spec in E1 as (J1 & L1 & B1).
  destruct lines1 as [|line lines1]; [simpl in *; now rewrite append_nil_r in J1|].
  destruct (Remove.gather_object EmptyString 0 false (line :: lines1))
    as [obj lines2] eqn:E2.
  apply gather_object_head in E2 as (J2 & L2); [|exact B1].
  destruct (Remove.gather_trailing EmptyString lines2) as [trailing lines3] eqn:E3.
  apply gather_trailing_spec in E3 as (J3 & L3).
  specialize (IH lines3).
  destruct (Remove.split_units_loop fuel lines3) as [units dropped].
  cbn [fst snd map join unit_text] in *.
  rewrite !append_assoc, IH by (simpl in *; lia).
  cbn [append] in J1, J3. rewrite J3, J2. exact J1.
Qed.

(** The turns given to the loop are enough: more of them change nothing. *)
Lemma split_units_loop_fuel (fuel : nat) :
  forall fuel' lines,
    List.length lines <= fuel -> List.length lines <= fuel' ->
    Remove.split_units_loop fuel lines = Remove.split_units_loop fuel' lines.
Proof.
  induction fuel as [|fuel IH]; intros [|fuel'] [|l0 lines0] Hf Hf';
    simpl in Hf, Hf'; try lia; try reflexivity.
  cbn [Remove.split_units_loop].
  destruct (Remove.gather_comments EmptyString (l0 :: lines0))
    as [comments lines1] eqn:E1.
  apply gather_comments_spec in E1 as (_ & L1 & B1).
  destruct lines1 as [|line lines1]; [reflexivity|].
  destruct (Remove.gather_object EmptyString 0 false (line :: lines1))
    as [obj lines2] eqn:E2.
  apply gather_object_head in E2 as (_ & L2); [|exact B1].
  destruct (Remove.gather_trailing EmptyString lines2) as [trailing lines3] eqn:E3.
  apply gather_trailing_spec in E3 as (_ & L3).
  rewrite (IH fuel' lines3) by (simpl in *; lia). reflexivity.
Qed.

Lemma split_units_join (array_text : string) :
  join (map unit_text (Remove.split_units array_text))
  ++ Remove.split_units_left array_text = array_text.
Proof.
  unfold Remove.split_units, Remove.split_units_left.
  rewrite split_units_loop_join by apply le_n.
  apply join_splitlines.
Qed.

End SplitUnits.

(** ** The boundary extractor *)

Section Boundaries.
Import PyStr Common Spec.

Lemma drop_drop (s : string) : forall a b, drop a (drop b s) = drop (a + b) s.
Proof.
  induction s as [|c s IH]; intros a [|b]; simpl.
  - now destruct a.
  - now destruct a.
  - now rewrite Nat.add_0_r.
  - rewrite IH. now rewrite Nat.add_succ_r.
Qed.

(** A text built around a bracketed span is cut back into its parts. *)
Lemma extract_build (pre arr post : string) :
  has_char "[" pre = false ->
  has_char "]" post = false ->
  extract_preamble_postamble (pre ++ String "[" (arr ++ String "]" post))
  = (pre, arr, post).
Proof.
  intros Hpre Hpost. unfold extract_preamble_postamble.
  rewrite (find_append "[" pre _ Hpre).
  replace (pre ++ String "[" (arr ++ String "]" post))
    with ((pre ++ String "[" arr) ++ String "]" post)
    by (rewrite append_assoc; reflexivity).
  rewrite (rfind_append "]" _ post Hpost).
  rewrite length_append. simpl length.
  destruct (Nat.ltb_spec (length pre + S (length arr)) (length pre)); [lia|].
  f_equal; [f_equal|].
  - rewrite append_assoc. apply take_append.
  - unfold slice. rewrite append_assoc. simpl append.
    replace (S (length pre)) with (length (pre ++ chr "[")) at 2
      by (rewrite length_append; simpl; lia).
    replace (pre ++ String "[" (arr ++ String "]" post))
      with ((pre ++ chr "[") ++ arr ++ String "]" post)
      by (rewrite append_assoc; reflexivity).
    rewrite drop_append.
    replace (length pre + S (length arr) - S (length pre)) with (length arr) by lia.
    apply take_append.
  - replace (S (length pre + S (length arr)))
      with (length ((pre ++ String "[" arr) ++ chr "]"))
      by (rewrite !length_append; simpl; lia).
    replace ((pre ++ String "[" arr) ++ String "]" post)
      with (((pre ++ String "[" arr) ++ chr "]") ++ post)
      by (rewrite (append_assoc _ (chr "]") post); reflexivity).
    apply drop_append.
Qed.

(** A text with a bracketed span is built around it. *)
Lemma has_array_split (text : string) :
  has_array text = true ->
  exists pre arr post,
    text = pre ++ String "[" (arr ++ String "]" post)
    /\ has_char "[" pre = false /\ has_char "]" post = false.
Proof.
  unfold has_array. intros H.
  destruct (find "[" text) as [i|] eqn:Hi; [|discriminate].
  destruct (rfind "]" text) as [j|] eqn:Hj; [|discriminate].
  apply negb_true_iff, Nat.ltb_ge in H.
  destruct (find_some _ _ _ Hi) as (Ei & Ni & Li).
  destruct (rfind_some _ _ _ Hj) as (Ej & Nj & Lj).
  assert (Di : drop i text = String "[" (drop (S i) text)).
  { rewrite Ei at 1. rewrite <- Li at 1. apply drop_append. }
  assert (Dj : drop j text = String "]" (drop (S j) text)).
  { rewrite Ej at 1. rewrite <- Lj at 1. apply drop_append. }
  assert (Hlt : i < j).
  { destruct (Nat.eq_dec i j) as [->|]; [|lia].
    rewrite Dj in Di. discriminate. }
  exists (take i text), (take (j - S i) (drop (S i) text)), (drop (S j) text).
  repeat split; auto.
  rewrite <- Dj.
  replace (drop j text) with (drop (j - S i) (drop (S i) text))
    by (rewrite drop_drop; f_equal; lia).
  rewrite take_drop. exact Ei.
Qed.

Lemma no_array_extract (text : string) :
  has_array text = false ->
  extract_preamble_postamble text = (EmptyString, EmptyString, text).
Proof.
  unfold has_array, extract_preamble_postamble.
  destruct (find "[" text); [|reflexivity].
  destruct (rfind "]" text); [|reflexivity].
  intros H. apply negb_false_iff in H. now rewrite H.
Qed.

Lemma final_newline_no_bracket (post : string) :
  has_char "]" post = false ->
  has_char "]" (post ++ final_newline post) = false.
Proof.
  intros H. rewrite has_char_append, H. unfold final_newline.
  now destruct (endswith _ _).
Qed.

End Boundaries.

(** ** The removal tool *)

Section RemoveFacts.
Import PyStr Json Common Spec.

Variable json_loads : string -> option jvalue.

(** The loop of [main] writes the units that are not removed, in order and
    as they are. *)
Lemma write_units_filter (attr val : string) (units : list Remove.Unit) :
  Remove.write_units json_loads attr val units
  = join (map unit_text
       (filter (fun u => negb (Remove.should_remove json_loads (unit_object u) attr val))
               units)).
Proof.
  induction units as [|[[comments obj] trailing] units IH]; simpl; [reflexivity|].
  unfold unit_object at 1. simpl.
  destruct (Remove.should_remove json_loads obj attr val); simpl; [exact IH|].
  now rewrite IH, !append_assoc.
Qed.

Lemma filter_all {A : Type} (f : A -> bool) (l : list A) :
  forallb f l = true -> filter f l = l.
Proof.
  induction l as [|x l IH]; simpl; [reflexivity|].
  intros H. apply andb_true_iff in H as [Hx Hl]. now rewrite Hx, IH.
Qed.

Lemma filter_none {A : Type} (f : A -> bool) (l : list A) :
  forallb (fun x => negb (f x)) l = true -> filter f l = [].
Proof.
  induction l as [|x l IH]; simpl; [reflexivity|].
  intros H. apply andb_true_iff in H as [Hx Hl].
  apply negb_true_iff in Hx. now rewrite Hx, IH.
Qed.

(** What [main] writes, in the parts of the input. *)
Lemma remove_main_eq (attr val raw : string) :
  Remove.main json_loads attr val raw
  = preamble_of raw ++ "[" ++ join (map unit_text (survivors json_loads attr val (array_of raw)))
    ++ "]" ++ postamble_of raw ++ final_newline (postamble_of raw).
Proof.
  unfold Remove.main, preamble_of, array_of, postamble_of, survivors.
  destruct (extract_preamble_postamble raw) as [[pre arr] post]. simpl fst; simpl snd.
  now rewrite write_units_filter.
Qed.

End RemoveFacts.

(** ** The removal tool and the text without an array *)

Section RemoveProperties.
Import PyStr Json Common Spec.

Variable json_loads : string -> option jvalue.

Lemma no_array_cases (text : string) :
  has_char "[" text = false \/ has_char "]" text = false
  \/ (exists i j, find "[" text = Some i /\ rfind "]" text = Some j /\ j < i) ->
  has_array text = false.
Proof.
  unfold has_array. intros [H|[H|(i & j & Hi & Hj & Hlt)]].
  - apply find_none in H. now rewrite H.
  - apply rfind_none in H. rewrite H. now destruct (find "[" text).
  - rewrite Hi, Hj. apply negb_false_iff, Nat.ltb_lt. exact Hlt.
Qed.

(** C1 (amended).  For a text with no opening bracket, or no closing
    bracket, or whose last closing bracket comes before its first opening
    bracket, the removal and the sort both write an empty array, then the
    whole text, then a line feed when the text does not end with one. *)
Theorem C1_no_array_output (attr val primary text : string) :
  has_char "[" text = false \/ has_char "]" text = false
  \/ (exists i j, find "[" text = Some i /\ rfind "]" text = Some j /\ j < i) ->
  Remove.main json_loads attr val text = "[]" ++ text ++ final_newline text
  /\ Sort.main json_loads primary text = Some ("[]" ++ text ++ final_newline text).
Proof.
  intros H. apply no_array_cases, no_array_extract in H.
  unfold Remove.main, Sort.main. rewrite H. split; reflexivity.
Qed.

End RemoveProperties.

(** ** The natural-order comparator *)

Section NaturalOrder.
Import PyStr Spec.


Lemma no_digit_append (a b : string) :
  no_digit (a ++ b) = no_digit a && no_digit b.
Proof.
  induction a as [|c a IH]; simpl; [reflexivity|].
  now rewrite IH, andb_assoc.
Qed.

Lemma all_digits_append (a b : string) :
  Sort.all_digits (a ++ b) = Sort.all_digits a && Sort.all_digits b.
Proof.
  induction a as [|c a IH]; simpl; [reflexivity|].
  now rewrite IH, andb_assoc.
Qed.

Lemma digit_run_snoc (cur : string) (c : ascii) :
  digit_run cur = true -> isdigit c = true -> digit_run (cur ++ chr c) = true.
Proof.
  unfold digit_run, Sort.str_isdigit. intros Hc Hd.
  destruct cur as [|x cur]; [discriminate|].
  change (Sort.all_digits (String x cur ++ chr c) = true).
  rewrite all_digits_append, Hc. simpl. now rewrite Hd.
Qed.

(** The two modes of the split keep the shape of the pieces: a text on its
    own or before a run, a run before what follows it. *)
Lemma split_digits_shape (s : string) :
  (forall cur first,
      no_digit cur = true ->
      first || negb (cur =? EmptyString) = true ->
      alternating first (Re.split_digits cur false s) = true)
  /\ (forall cur,
        digit_run cur = true ->
        exists run rest,
          Re.split_digits cur true s = run :: rest
          /\ digit_run run = true /\ alternating false rest = true).
Proof.
  induction s as [|c s [IHt IHr]]; split.
  - intros cur first Hc _. exact Hc.
  - intros cur Hc. exists cur, [EmptyString]. auto.
  - intros cur first Hc Hf. simpl. destruct (isdigit c) eqn:Ec.
    + destruct (IHr (chr c)) as (run & rest & E & Hrun & Hrest).
      { unfold digit_run. simpl. now rewrite Ec. }
      rewrite E. simpl. now rewrite Hc, Hrun, Hf, Hrest.
    + apply IHt.
      * rewrite no_digit_append, Hc. simpl. now rewrite Ec.
      * destruct cur; simpl; now rewrite orb_true_r.
  - intros cur Hc. simpl. destruct (isdigit c) eqn:Ec.
    + apply IHr. now apply digit_run_snoc.
    + exists cur, (Re.split_digits (chr c) false s). repeat split; auto.
      apply IHt; simpl; [now rewrite Ec | reflexivity].
Qed.

Lemma no_digit_not_run (text : string) :
  no_digit text = true -> Sort.str_isdigit text = false.
Proof.
  destruct text as [|c text]; simpl; [reflexivity|].
  intros H. apply andb_true_iff in H as [H _].
  apply negb_true_iff in H. now rewrite H.
Qed.

Lemma limit_pos : (1 <=? Sort.int_max_str_digits)%nat = true.
Proof. reflexivity. Qed.

(** The elements of alternating pieces: the key of the pieces when every
    run is within the limit of [int], an exception otherwise. *)
Lemma key_elements_alternating_bounded (n : nat) :
  forall pieces first,
    List.length pieces <= n ->
    alternating first pieces = true ->
    Sort.key_elements pieces
    = if forallb fits pieces then Some (key_of_pieces pieces) else None.
Proof.
  induction n as [|n IH]; intros [|text [|run rest]] first Hn H;
    simpl in Hn; try discriminate; try lia.
  - cbn [alternating] in H.
    cbn [Sort.key_elements forallb key_of_pieces]. unfold Sort.key_element, fits.
    now rewrite (no_digit_not_run _ H).
  - cbn [alternating] in H.
    apply andb_true_iff in H as [H Hrest].
    apply andb_true_iff in H as [H _].
    apply andb_true_iff in H as [Htext Hrun].
    unfold digit_run in Hrun.
    cbn [Sort.key_elements forallb key_of_pieces].
    rewrite (IH rest false) by (try lia; exact Hrest).
    destruct (forallb fits rest);
      unfold Sort.key_element, fits, Sort.py_int;
      rewrite (no_digit_not_run _ Htext), Hrun; cbn [negb orb andb];
      destruct (length run <=? Sort.int_max_str_digits)%nat; reflexivity.
Qed.

Lemma key_elements_alternating (pieces : list string) (first : bool) :
  alternating first pieces = true ->
  Sort.key_elements pieces
  = if forallb fits pieces then Some (key_of_pieces pieces) else None.
Proof. apply (key_elements_alternating_bounded (List.length pieces)), le_n. Qed.

(** A run that has passed the limit makes the pieces unfit, whatever
    follows. *)
Lemma long_run_does_not_fit (s : string) :
  forall cur,
    digit_run cur = true -> Sort.int_max_str_digits < length cur ->
    forallb fits (Re.split_digits cur true s) = false.
Proof.
  induction s as [|c s IH]; intros cur Hc Hl; cbn [Re.split_digits].
  - cbn [forallb]. unfold fits at 1. unfold digit_run in Hc. rewrite Hc.
    apply Nat.leb_gt in Hl. rewrite Hl. reflexivity.
  - destruct (isdigit c) eqn:Ec.
    + apply IH; [now apply digit_run_snoc|].
      rewrite length_append. cbn [length chr]. lia.
    + cbn [forallb]. unfold fits at 1. unfold digit_run in Hc. rewrite Hc.
      apply Nat.leb_gt in Hl. rewrite Hl. reflexivity.
Qed.

(** The pieces fit exactly when the text has no more digits in a row than
    the limit. *)
Lemma fits_split (s : string) :
  (forall cur,
      no_digit cur = true ->
      forallb fits (Re.split_digits cur false s)
      = digits_in_a_row Sort.int_max_str_digits 0 s)
  /\ (forall cur,
        digit_run cur = true -> length cur <= Sort.int_max_str_digits ->
        forallb fits (Re.split_digits cur true s)
        = digits_in_a_row Sort.int_max_str_digits (length cur) s).
Proof.
  assert (Ft : forall t, no_digit t = true -> fits t = true).
  { intros t H. unfold fits. now rewrite (no_digit_not_run _ H). }
  assert (Fr : forall t, length t <= Sort.int_max_str_digits -> fits t = true).
  { intros t H. unfold fits. apply Nat.leb_le in H. rewrite H. apply orb_true_r. }
  induction s as [|c s [IHt IHr]]; split.
  - intros cur Hc. cbn [Re.split_digits forallb digits_in_a_row].
    now rewrite (Ft _ Hc).
  - intros cur Hc Hl. cbn [Re.split_digits forallb digits_in_a_row].
    now rewrite (Fr _ Hl).
  - intros cur Hc. cbn [Re.split_digits digits_in_a_row].
    destruct (isdigit c) eqn:Ec.
    + cbn [forallb]. rewrite (Ft _ Hc), limit_pos. cbn [andb].
      apply (IHr (chr c)).
      * unfold digit_run. cbn [chr Sort.str_isdigit Sort.all_digits].
        now rewrite Ec.
      * apply Nat.leb_le, limit_pos.
    + apply IHt. rewrite no_digit_append, Hc. cbn [chr no_digit andb].
      now rewrite Ec.
  - intros cur Hc Hl. cbn [Re.split_digits digits_in_a_row].
    destruct (isdigit c) eqn:Ec.
    + destruct (S (length cur) <=? Sort.int_max_str_digits)%nat eqn:El; cbn [andb].
      * apply Nat.leb_le in El.
        rewrite (IHr (cur ++ chr c)).
        -- rewrite length_append. cbn [length chr]. now rewrite Nat.add_1_r.
        -- now apply digit_run_snoc.
        -- rewrite length_append. cbn [length chr]. lia.
      * apply Nat.leb_gt in El.
        apply long_run_does_not_fit; [now apply digit_run_snoc|].
        rewrite length_append. cbn [length chr]. lia.
    + cbn [forallb]. rewrite (Fr _ Hl). cbn [andb].
      apply IHt. cbn [chr no_digit andb]. now rewrite Ec.
Qed.

(** [natural_key] gives the key of the text when no digit run is longer
    than the limit of [int], and raises otherwise. *)
Lemma natural_key_spec (s : string) :
  Sort.natural_key s = if short_runs s then Some (key_of_text s) else None.
Proof.
  unfold Sort.natural_key, short_runs, key_of_text.
  rewrite (key_elements_alternating _ true)
    by (apply (proj1 (split_digits_shape s)); reflexivity).
  unfold Re.split_on_digits. now rewrite (proj1 (fits_split s) EmptyString eq_refl).
Qed.

Lemma natural_key_some (s : string) (k : list Sort.tok) :
  Sort.natural_key s = Some k -> k = key_of_text s.
Proof.
  rewrite natural_key_spec. destruct (short_runs s); [|discriminate].
  now intros [= <-].
Qed.

Lemma tok_eqb_refl (x : Sort.tok) : Sort.tok_eqb x x = true.
Proof. destruct x; simpl; [apply N.eqb_refl | apply String.eqb_refl]. Qed.


Lemma split_text_prefix (p : string) :
  forall cur s,
    no_digit p = true ->
    Re.split_digits cur false (p ++ s) = Re.split_digits (cur ++ p) false s.
Proof.
  induction p as [|c p IH]; intros cur s H; simpl in *.
  - now rewrite append_nil_r.
  - apply andb_true_iff in H as [Hc Hp]. apply negb_true_iff in Hc.
    rewrite Hc, IH by exact Hp. now rewrite append_assoc.
Qed.

Lemma split_run_prefix (d : string) :
  forall cur s,
    Sort.all_digits d = true ->
    Re.split_digits cur true (d ++ s) = Re.split_digits (cur ++ d) true s.
Proof.
  induction d as [|c d IH]; intros cur s H; simpl in *.
  - now rewrite append_nil_r.
  - apply andb_true_iff in H as [Hc Hd].
    rewrite Hc, IH by exact Hd. now rewrite append_assoc.
Qed.












End NaturalOrder.





(** ** The sort raises no exception *)

Section SortTotal.
Import PyStr Spec.

Lemma key_of_pieces_kinds (n : nat) :
  forall pieces,
    List.length pieces <= n -> alt_kinds true (key_of_pieces pieces) = true.
Proof.
  induction n as [|n IH]; intros [|text [|run rest]] Hn; simpl in *;
    try reflexivity; try lia.
  apply IH. lia.
Qed.

Lemma natural_key_kinds (s : string) :
  alt_kinds true (key_of_text s) = true
  /\ key_of_text s <> [].
Proof.
  assert (Halt : alternating true (Re.split_on_digits s) = true)
    by (apply (proj1 (split_digits_shape s)); reflexivity).
  unfold key_of_text.
  split; [apply (key_of_pieces_kinds _ _ (le_n _))|].
  destruct (Re.split_on_digits s) as [|text [|run rest]]; discriminate.
Qed.

(** Two keys of the same kinds are compared without a [TypeError]. *)
Lemma list_lt_total (a : list Sort.tok) :
  forall b expect_str,
    alt_kinds expect_str a = true -> alt_kinds expect_str b = true ->
    exists r, Sort.list_lt a b = Some r.
Proof.
  induction a as [|x a IH]; intros [|y b] e Ha Hb; simpl; eauto.
  destruct x as [m|s], y as [n|t]; simpl in *;
    destruct e; simpl in *; try discriminate.
  - destruct (N.eqb m n); eauto.
  - destruct (String.eqb s t); eauto.
Qed.

Lemma key_lt_total (k1 k2 : Sort.sort_key) :
  built_key k1 -> built_key k2 -> exists r, Sort.key_lt k1 k2 = Some r.
Proof.
  intros [->|(a1 & b1 & c1 & ->)] [->|(a2 & b2 & c2 & ->)];
    unfold Sort.key_lt, Sort.failed_key.
  - simpl. eauto.
  - destruct (natural_key_kinds a2) as [_ Hne].
    destruct (key_of_text a2); [contradiction|]. simpl. eauto.
  - destruct (natural_key_kinds a1) as [_ Hne].
    destruct (key_of_text a1); [contradiction|]. simpl. eauto.
  - destruct (negb _).
    + apply list_lt_total with (expect_str := true); apply natural_key_kinds.
    + destruct (negb _); [|eauto]. simpl.
      apply list_lt_total with (expect_str := true); apply natural_key_kinds.
Qed.

Lemma insert_by_key_total {A : Type} (x : Sort.sort_key * A) (l : list (Sort.sort_key * A)) :
  built_key (fst x) -> Forall (fun y => built_key (fst y)) l ->
  exists l', Sort.insert_by_key x l = Some l'
             /\ Forall (fun y => built_key (fst y)) l'.
Proof.
  intros Hx Hl. induction Hl as [|y l Hy Hl IH]; simpl.
  - eexists; split; [reflexivity|]. auto.
  - destruct (key_lt_total _ _ Hx Hy) as ([|] & ->).
    + eexists; split; [reflexivity|]. auto.
    + destruct IH as (l' & -> & Hl'). simpl. eexists; split; [reflexivity|]. auto.
Qed.

Lemma sorted_total {A : Type} (key : A -> Sort.sort_key) (l : list A) :
  (forall x, built_key (key x)) -> exists l', Sort.sorted key l = Some l'.
Proof.
  intros Hkey. unfold Sort.sorted.
  assert (G : forall done,
             Forall (fun y : Sort.sort_key * A => built_key (fst y)) done ->
             exists r,
               fold_left
                 (fun acc x =>
                    match acc with
                    | Some done => Sort.insert_by_key (key x, x) done
                    | None => None
                    end) l (Some done) = Some r).
  { induction l as [|x l IH]; intros done Hd; simpl; [eauto|].
    destruct (insert_by_key_total (key x, x) done (Hkey x) Hd) as (l' & -> & Hl').
    now apply IH. }
  destruct (G [] (Forall_nil _)) as (r & ->). simpl. eauto.
Qed.

Lemma extract_sort_keys_built (json_loads : string -> option Json.jvalue)
  (obj_text primary : string) :
  built_key (Sort.extract_sort_keys json_loads obj_text primary).
Proof.
  unfold Sort.extract_sort_keys.
  destruct (Re.search_object_greedy obj_text) as [obj_str|]; [|now left].
  destruct (json_loads _) as [obj|]; [|now left].
  destruct (Json.get obj "key" _) as [k|]; [|now left].
  destruct (Json.get obj "when" _) as [w|]; [|now left].
  destruct (Json.get obj "_comment" _) as [c|]; [|now left].
  destruct (primary =? "when").
  - destruct (Sort.natural_key (Json.py_str w)) as [first|] eqn:E1; [|now left].
    destruct (Sort.natural_key (Json.py_str k)) as [second|] eqn:E2; [|now left].
    apply natural_key_some in E1, E2. subst. right. eauto.
  - destruct (Sort.natural_key (Json.py_str k)) as [first|] eqn:E1; [|now left].
    destruct (Sort.natural_key (Json.py_str w)) as [second|] eqn:E2; [|now left].
    apply natural_key_some in E1, E2. subst. right. eauto.
Qed.

(** [Sort.main] writes a text on every input: the comparisons of the sort
    never meet an [int] and a [str]. *)
Lemma sort_main_total (json_loads : string -> option Json.jvalue)
  (primary raw : string) :
  exists out, Sort.main json_loads primary raw = Some out.
Proof.
  unfold Sort.main.
  destruct (Common.extract_preamble_postamble raw) as [[pre arr] post].
  destruct (Sort.group_objects_with_comments arr) as [groups trailing].
  destruct (sorted_total
              (fun pair : string * string =>
                 Sort.extract_sort_keys json_loads (snd pair) primary) groups)
    as (l' & ->); [|eauto].
  intros x. apply extract_sort_keys_built.
Qed.

End SortTotal.

(** ** The duplicate annotation of the sort *)

Section Duplicates.
Import PyStr Spec.

Variable json_loads : string -> option Json.jvalue.

Lemma seen_mem_In (p : string * string) (seen : list (string * string)) :
  Sort.seen_mem p seen = true <-> In p seen.
Proof.
  unfold Sort.seen_mem. rewrite existsb_exists. split.
  - intros ([a b] & Hin & H). apply andb_true_iff in H as [Ha Hb].
    apply String.eqb_eq in Ha, Hb. simpl in *. destruct p; simpl in *; now subst.
  - intros Hin. exists p. split; [exact Hin|]. now rewrite !String.eqb_refl.
Qed.

(** The units written before a unit of the sorted list are not the last
    ones, and the unit itself is written with the pairs of all of them
    among the pairs seen. *)
Lemma write_groups_at (before : list (string * string)) :
  forall seen g after,
    exists written,
      Sort.write_groups json_loads seen (before ++ g :: after)%list
      = written
        ++ Sort.write_group json_loads (match after with [] => true | _ => false end)
             (rev (map (fun h => Sort.extract_key_when json_loads (snd h)) before)
              ++ seen)%list g
        ++ Sort.write_groups json_loads
             (Sort.extract_key_when json_loads (snd g)
              :: rev (map (fun h => Sort.extract_key_when json_loads (snd h)) before)
              ++ seen)%list after.
Proof.
  induction before as [|h before IH]; intros seen g after.
  - exists EmptyString. reflexivity.
  - destruct (IH (Sort.extract_key_when json_loads (snd h) :: seen) g after)
      as (written & E).
    eexists. cbn [app Sort.write_groups map rev]. rewrite E.
    rewrite <- !app_assoc. cbn [app]. rewrite <- append_assoc. reflexivity.
Qed.

(** A unit is written with the marker exactly when a unit before it in the
    sorted list gives the same pair to [extract_key_when]; the pair of an
    object that does not parse is the pair of two empty strings. *)
Lemma duplicate_marker_rule (before : list (string * string)) (g : string * string) :
  Sort.seen_mem (Sort.extract_key_when json_loads (snd g))
    (rev (map (fun h => Sort.extract_key_when json_loads (snd h)) before) ++ [])%list
  = true
  <-> exists h, Sort.extract_key_when json_loads (snd h)
                = Sort.extract_key_when json_loads (snd g)
                /\ In h before.
Proof.
  rewrite seen_mem_In, app_nil_r, <- in_rev, in_map_iff. reflexivity.
Qed.

End Duplicates.

(** ** Closed instances *)

Section ClosedInstances.
Import PyStr Common Spec Examples.

Lemma C1_witness :
  has_char "[" "no array here" = false
  /\ Remove.main Json.json_loads_flat "_gigachad" "gigachad" "no array here"
     = "[]" ++ "no array here" ++ final_newline "no array here"
  /\ Sort.main Json.json_loads_flat "key" "no array here"
     = Some ("[]" ++ "no array here" ++ final_newline "no array here").
Proof.
  split; [reflexivity|].
  apply (C1_no_array_output Json.json_loads_flat). left. reflexivity.
Defined.

(** A text without brackets is not written back as it is: both tools put
    an empty array before it and a line feed after it. *)
Lemma C1_counterexample :
  has_char "[" "hello" = false
  /\ remove_main "_gigachad" "gigachad" "hello" = txt "[]hello|"
  /\ remove_main "_gigachad" "gigachad" "hello" <> "hello"
  /\ sort_main "key" "hello" = Some (txt "[]hello|")
  /\ sort_main "key" "hello" <> Some "hello".
Proof.
  repeat split; try reflexivity; vm_compute; discriminate.
Qed.

(** C2.  A removal that matches no unit does not give the array back: the
    lines after the last unit that the segmenter gathers as comments, here
    the end of a block comment, are not in any unit and are not written.
    The output ends inside the comment. *)
Theorem C2_comment_end_dropped :
  let raw := txt "[|{|`key`: `a`|}|/* x|y */|]|" in
  let out := remove_main "_gigachad" "gigachad" raw in
  has_array raw = true
  /\ Remove.split_units (array_of raw)
     = [(txt "|", txt "{|`key`: `a`|}|", txt "/* x|")]
  /\ Remove.should_remove Json.json_loads_flat (txt "{|`key`: `a`|}|")
       "_gigachad" "gigachad" = false
  /\ array_of raw = txt "|{|`key`: `a`|}|/* x|y */|"
  /\ out = txt "[|{|`key`: `a`|}|/* x|]|"
  /\ array_of out = txt "|{|`key`: `a`|}|/* x|"
  /\ array_of out <> array_of raw.
Proof. repeat split; try reflexivity. vm_compute. discriminate. Qed.

(** C4.  A record whose object holds a closing brace before its last one,
    here the brace of its args, is kept although its text parses and the
    value of its key contains the search string: the removal reads the
    object up to the first closing brace only, that text does not parse,
    and the unit is kept.  The record before it, with the same key and
    without args, is removed. *)
Theorem C4_record_with_args_kept :
  let raw := txt "[|{|`key`: `ctrl+a`|},|{|`key`: `ctrl+a`,|`args`: {`text`: `x`}|}|]|" in
  let plain := txt "{|`key`: `ctrl+a`|},|" in
  let nested := txt "{|`key`: `ctrl+a`,|`args`: {`text`: `x`}|}|" in
  Remove.split_units (array_of raw)
  = [(txt "|", plain, EmptyString); (EmptyString, nested, EmptyString)]
  /\ Json.json_loads_flat nested
     = Some (Json.JDict [("key", Json.JStr "ctrl+a");
                         ("args", Json.JDict [("text", Json.JStr "x")])])
  /\ contains "ctrl" "ctrl+a" = true
  /\ Re.search_object_lazy nested
     = Some (txt "{|`key`: `ctrl+a`,|`args`: {`text`: `x`}")
  /\ Remove.should_remove Json.json_loads_flat plain "key" "ctrl" = true
  /\ Remove.should_remove Json.json_loads_flat nested "key" "ctrl" = false
  /\ remove_main "key" "ctrl" raw
     = txt "[{|`key`: `ctrl+a`,|`args`: {`text`: `x`}|}|]|".
Proof. repeat split; reflexivity. Qed.

(** C10.  With the empty search string a record that parses is kept when
    the value of its key holds a closing brace: the removal reads the
    object up to that brace, inside the string literal, and does not parse
    it.  The record before it is removed. *)
Theorem C10_empty_search_keeps_record :
  let raw := txt "[|{|`key`: `ctrl+a`|},|{|`key`: `a{b}c`|}|]|" in
  let plain := txt "{|`key`: `ctrl+a`|},|" in
  let braces := txt "{|`key`: `a{b}c`|}|" in
  Remove.split_units (array_of raw)
  = [(txt "|", plain, EmptyString); (EmptyString, braces, EmptyString)]
  /\ Json.json_loads_flat braces = Some (Json.JDict [("key", Json.JStr "a{b}c")])
  /\ contains EmptyString "a{b}c" = true
  /\ Re.search_object_lazy braces = Some (txt "{|`key`: `a{b}")
  /\ Remove.should_remove Json.json_loads_flat plain "key" EmptyString = true
  /\ Remove.should_remove Json.json_loads_flat braces "key" EmptyString = false
  /\ remove_main "key" EmptyString raw = txt "[{|`key`: `a{b}c`|}|]|".
Proof. repeat split; reflexivity. Qed.


(** C3.  The stripping of trailing commas does alter a string literal: in
    an object whose key value ends with a comma and a closing bracket or
    brace, the comma inside the quotes is dropped, while the comment
    stripping leaves the text as it is; the removal tool then searches the
    altered value and the sort tool reads the altered key. *)
Theorem C3_comma_inside_string :
  let obj := txt "{`key`: `ctrl+,]`}" in
  let obj' := txt "{`key`: `a,}`}" in
  strip_json_comments obj = obj
  /\ strip_trailing_commas (strip_json_comments obj) = txt "{`key`: `ctrl+]`}"
  /\ record_of Json.json_loads_flat obj = Some [("key", Json.JStr "ctrl+]")]
  /\ Remove.should_remove Json.json_loads_flat obj "key" "+," = false
  /\ strip_json_comments obj' = obj'
  /\ strip_trailing_commas (strip_json_comments obj') = txt "{`key`: `a}`}"
  /\ Sort.extract_key_when Json.json_loads_flat obj' = ("a}", EmptyString).
Proof. repeat split; reflexivity. Qed.

(** C6.  A record without key and without when, sorted after an object that
    does not parse, is the first unit with its pair and is marked as a
    duplicate all the same: the object that does not parse has left the
    pair of two empty strings among the pairs seen. *)
Theorem C6_first_record_marked :
  sort_main "key" (txt "[|{|bad|}|{|`command`: `x`|}|]|")
  = Some (txt "[|{|bad|},|// DUPLICATE key: '' when: ''|{|`command`: `x`|}|]|").
Proof. reflexivity. Qed.

(** C7.  Of two objects that do not parse, the second is marked as a
    duplicate of the first. *)
Theorem C7_unparsed_marked :
  sort_main "key" (txt "[|{|bad|}|{|worse|}|]|")
  = Some (txt "[|{|bad|},|// DUPLICATE key: '' when: ''|{|worse|}|]|").
Proof. reflexivity. Qed.

(** C8.  A unit that is not the last one, and whose last member starts its
    line with a comma, is written without a comma after its closing brace;
    and a unit whose closing brace is followed by a comma and a comment
    loses that comma and gets one at the end of the comment. *)
Theorem C8_comma_not_added :
  sort_main "key" (txt "[|{|`key`: `b`|,`when`: `x`|}|{|`key`: `c`|}|]|")
  = Some (txt "[|{|`key`: `b`|,`when`: `x`|}|{|`key`: `c`|}|]|")
  /\ Sort.object_has_trailing_comma (txt "{|`key`: `b`|,`when`: `x`|}") = true
  /\ sort_main "key" (txt "[|{|`key`: `a`|}, // first|{|`key`: `b`|}|]|")
     = Some (txt "[|{|`key`: `a`|} // first,|{|`key`: `b`|}|]|").
Proof. repeat split; reflexivity. Qed.

(** C9.  Two records with different keys, the first with a comma and a
    comment after its closing brace: the second sort does not give the
    output of the first one back, it adds one more comma at the end of the
    comment. *)
Theorem C9_second_sort_differs :
  let raw := txt "[|{|`key`: `a`|}, // first|{|`key`: `b`|}|]|" in
  let once := txt "[|{|`key`: `a`|} // first,|{|`key`: `b`|}|]|" in
  let twice := txt "[|{|`key`: `a`|} // first,,|{|`key`: `b`|}|]|" in
  sort_main "key" raw = Some once
  /\ sort_main "key" once = Some twice
  /\ once <> twice.
Proof. repeat split; try reflexivity. vm_compute. discriminate. Qed.

End ClosedInstances.

(** * Further properties of the two tools *)

(** ** Boundaries, final line feed and segmentation *)

Section OutputShape.
Import PyStr Json Common Spec.

Variable json_loads : string -> option jvalue.

Lemma endswith_append_r (p a : string) : endswith p (a ++ p) = true.
Proof.
  unfold endswith. rewrite length_append.
  replace (length a + length p - length p) with (length a) by lia.
  rewrite drop_append, String.eqb_refl.
  now destruct (Nat.leb_spec (length p) (length a + length p)); [|lia].
Qed.

Lemma endswith_append (p a b : string) :
  endswith p b = true -> endswith p (a ++ b) = true.
Proof.
  unfold endswith. intros H. apply andb_true_iff in H as [Hl He].
  apply Nat.leb_le in Hl. rewrite length_append.
  replace (length a + length b - length p)
    with ((length b - length p) + length a) by lia.
  rewrite <- drop_drop, drop_append, He.
  now destruct (Nat.leb_spec (length p) (length a + length b)); [|lia].
Qed.

Lemma ends_with_final_newline (post : string) :
  endswith (chr LF) (post ++ final_newline post) = true.
Proof.
  unfold final_newline. destruct (endswith (chr LF) post) eqn:E.
  - now rewrite append_nil_r.
  - apply endswith_append_r.
Qed.

Lemma find_le (c : ascii) (a r : string) :
  exists i, find c (a ++ String c r) = Some i /\ i <= length a.
Proof.
  induction a as [|d a (i & Hi & Hle)]; simpl.
  - rewrite Ascii.eqb_refl. exists 0. auto.
  - destruct (Ascii.eqb d c); [exists 0; split; [reflexivity | lia]|].
    rewrite Hi. exists (S i). split; [reflexivity | lia].
Qed.

Lemma rfind_ge (c : ascii) (a r : string) :
  exists j, rfind c (a ++ String c r) = Some j /\ length a <= j.
Proof.
  induction a as [|d a (j & Hj & Hle)]; simpl.
  - destruct (rfind c r) as [k|]; [exists (S k); split; [reflexivity | lia]|].
    rewrite Ascii.eqb_refl. exists 0. auto.
  - rewrite Hj. exists (S j). split; [reflexivity | lia].
Qed.

(** A text with an opening bracket and a closing bracket after it has a
    bracketed span. *)
Lemma has_array_build (a m b : string) :
  has_array (a ++ String "[" (m ++ String "]" b)) = true.
Proof.
  unfold has_array.
  destruct (find_le "[" a (m ++ String "]" b)) as (i & -> & Hi).
  replace (a ++ String "[" (m ++ String "]" b))
    with ((a ++ String "[" m) ++ String "]" b)
    by (rewrite append_assoc; reflexivity).
  destruct (rfind_ge "]" (a ++ String "[" m) b) as (j & -> & Hj).
  rewrite length_append in Hj. simpl in Hj.
  apply negb_true_iff, Nat.ltb_ge. lia.
Qed.

(** What both tools write around the units. *)
Lemma written_shape (pre units post : string) :
  has_array (pre ++ "[" ++ units ++ "]" ++ post ++ final_newline post) = true
  /\ endswith (chr LF) (pre ++ "[" ++ units ++ "]" ++ post ++ final_newline post)
     = true.
Proof.
  split; [apply (has_array_build pre units (post ++ final_newline post))|].
  apply endswith_append, (endswith_append _ (chr "[")), endswith_append,
    (endswith_append _ (chr "]")), ends_with_final_newline.
Qed.

(** X1.  When a text has a bracketed span, its three parts put together
    with the two brackets are the text again; no opening bracket is in the
    preamble and no closing bracket is in the postamble. *)
Theorem X1_extract_reassembles (text : string) :
  has_array text = true ->
  preamble_of text ++ "[" ++ array_of text ++ "]" ++ postamble_of text = text
  /\ has_char "[" (preamble_of text) = false
  /\ has_char "]" (postamble_of text) = false.
Proof.
  intros H. destruct (has_array_split text H) as (pre & arr & post & E & Hpre & Hpost).
  assert (X : extract_preamble_postamble text = (pre, arr, post))
    by (rewrite E; now apply extract_build).
  unfold preamble_of, array_of, postamble_of. rewrite X. cbn [fst snd].
  split; [rewrite E; reflexivity | auto].
Qed.

(** X2.  A text put together from a preamble without an opening bracket, an
    array text between brackets and a postamble without a closing bracket
    is cut back into exactly these three parts, whatever brackets the array
    text holds. *)
Theorem X2_extract_of_built_text (pre arr post : string) :
  has_char "[" pre = false ->
  has_char "]" post = false ->
  extract_preamble_postamble (pre ++ "[" ++ arr ++ "]" ++ post) = (pre, arr, post).
Proof. exact (extract_build pre arr post). Qed.

(** X3.  The units of [split_units], each written as comments, object and
    trailing text, followed by the comment lines that the loop gathers
    after the last unit and does not return, are the array text: nothing
    else is lost and nothing is reordered. *)
Theorem X3_split_units_conserves_text (array_text : string) :
  join (map unit_text (Remove.split_units array_text))
  ++ Remove.split_units_left array_text = array_text.
Proof. exact (split_units_join array_text). Qed.

(** X4.  On every input, with or without an array, the removal tool and the
    sort tool write a text that has a bracketed span and ends with a line
    feed; the sort tool never stops on an exception. *)
Theorem X4_output_shape (attr val primary raw : string) :
  (let out := Remove.main json_loads attr val raw in
   has_array out = true /\ endswith (chr LF) out = true)
  /\ exists out, Sort.main json_loads primary raw = Some out
                 /\ has_array out = true /\ endswith (chr LF) out = true.
Proof.
  split.
  - unfold Remove.main.
    destruct (extract_preamble_postamble raw) as [[pre arr] post].
    apply written_shape.
  - unfold Sort.main.
    destruct (extract_preamble_postamble raw) as [[pre arr] post].
    destruct (Sort.group_objects_with_comments arr) as [groups trailing].
    destruct (sorted_total
                (fun pair : string * string =>
                   Sort.extract_sort_keys json_loads (snd pair) primary) groups)
      as (l' & ->); [intros x; apply extract_sort_keys_built|].
    eexists. split; [reflexivity|].
    rewrite <- (append_assoc (Sort.write_groups json_loads [] l') trailing).
    apply written_shape.
Qed.

End OutputShape.

(** ** The grouping of the sort tool *)

Section Grouping.
Import PyStr Json Common Spec Laws.

Variable json_loads : string -> option jvalue.

Lemma join_app (a b : list string) : join (a ++ b) = join a ++ join b.
Proof.
  induction a as [|x a IH]; simpl; [reflexivity|].
  now rewrite IH, append_assoc.
Qed.

(** The loop keeps every line it has read: in a group, in the comments
    gathered for the next group, or in the object being read; and outside
    an object the buffer is empty. *)
Lemma group_step_keeps (lines : list string) :
  forall st,
    (Sort.in_obj st = false -> Sort.buf st = EmptyString) ->
    let st' := fold_left Sort.group_step lines st in
    join (map group_text (Sort.groups st')) ++ Sort.comments st' ++ Sort.buf st'
    = (join (map group_text (Sort.groups st)) ++ Sort.comments st ++ Sort.buf st)
      ++ join lines
    /\ (Sort.in_obj st' = false -> Sort.buf st' = EmptyString).
Proof.
  induction lines as [|line lines IH]; intros st Hst; cbn [fold_left join].
  - now rewrite append_nil_r.
  - destruct (IH (Sort.group_step st line)) as [E I].
    + unfold Sort.group_step.
      destruct (Sort.in_obj st) eqn:Ein; cbn [negb].
      * destruct (Z.eqb _ 0); cbn [Sort.in_obj Sort.buf]; auto. discriminate.
      * destruct (has_char "{" (strip line)); cbn [Sort.in_obj Sort.buf]; auto.
        discriminate.
    + split; [|exact I]. cbv zeta in E. rewrite E. clear E I IH.
      rewrite <- !append_assoc. f_equal.
      unfold Sort.group_step.
      destruct (Sort.in_obj st) eqn:Ein; cbn [negb].
      * destruct (Z.eqb _ 0); cbn [Sort.groups Sort.comments Sort.buf].
        -- rewrite map_app, join_app. cbn [map join group_text fst snd].
           now rewrite !append_nil_r, !append_assoc.
        -- now rewrite !append_assoc.
      * rewrite (Hst eq_refl).
        destruct (has_char "{" (strip line));
          cbn [Sort.groups Sort.comments Sort.buf];
          now rewrite ?append_nil_r, ?append_assoc.
Qed.

(** X5.  The groups that [group_objects_with_comments] returns, each as
    comments then object, followed by the trailing comments and by the
    lines of an object that is still open when the text ends, are the
    array text; when the text does not end inside an object, the groups
    and the trailing comments alone are the array text. *)
Theorem X5_grouping_conserves_text (array_text : string) :
  let '(groups, trailing_comments) := Sort.group_objects_with_comments array_text in
  join (map group_text groups) ++ trailing_comments
  ++ Sort.buf (group_loop array_text) = array_text
  /\ (Sort.in_obj (group_loop array_text) = false ->
      join (map group_text groups) ++ trailing_comments = array_text).
Proof.
  unfold Sort.group_objects_with_comments.
  fold (group_loop array_text).
  destruct (group_step_keeps (splitlines_keepends array_text)
              (Sort.GState [] EmptyString EmptyString 0 false)) as [E I];
    [reflexivity|].
  fold (group_loop array_text) in E, I. cbn [Sort.groups Sort.comments Sort.buf map join append] in E.
  rewrite join_splitlines in E. split; [exact E|].
  intros H. rewrite (I H), append_nil_r in E. exact E.
Qed.

Lemma splitlines_one_line (s cur : string) :
  one_line s = true ->
  splitlines_from cur s
  = match cur ++ s with EmptyString => [] | _ => [cur ++ s] end.
Proof.
  revert cur; induction s as [|c s IH]; intros cur H; simpl in *.
  - now rewrite append_nil_r.
  - apply andb_true_iff in H as [Hc Hs]. apply negb_true_iff in Hc.
    assert (Hcr : Ascii.eqb c CR = false).
    { destruct (Ascii.eqb_spec c CR) as [->|]; [discriminate Hc | reflexivity]. }
    rewrite Hcr, Hc, (IH _ Hs), append_assoc. reflexivity.
Qed.

Lemma has_char_lstrip (c : ascii) (s : string) :
  isspace c = false -> has_char c (lstrip s) = has_char c s.
Proof.
  intros Hc. induction s as [|d s IH]; simpl; [reflexivity|].
  destruct (isspace d) eqn:Ed; [|reflexivity].
  rewrite IH. destruct (Ascii.eqb_spec d c) as [->|]; [congruence | reflexivity].
Qed.

Lemma has_char_rstrip (c : ascii) (s : string) :
  isspace c = false -> has_char c (rstrip s) = has_char c s.
Proof.
  intros Hc. induction s as [|d s IH]; simpl; [reflexivity|].
  destruct (rstrip s) as [|e r] eqn:Er.
  - simpl in IH. rewrite <- IH.
    destruct (isspace d) eqn:Ed; simpl.
    + destruct (Ascii.eqb_spec d c) as [->|]; [congruence | reflexivity].
    + now rewrite orb_false_r.
  - cbn [has_char]. now rewrite <- IH.
Qed.

Lemma has_char_strip (c : ascii) (s : string) :
  isspace c = false -> has_char c (strip s) = has_char c s.
Proof.
  intros Hc. unfold strip. now rewrite has_char_lstrip, has_char_rstrip.
Qed.

(** X6.  When the array text, of code points below 128, is on one line and
    holds an opening brace, the sort tool finds no group and no trailing
    comment: it writes the preamble, an empty array and the postamble, and
    the objects of the line are not written. *)
Theorem X6_one_line_array_is_emptied (primary raw : string) :
  isascii (array_of raw) = true ->
  one_line (array_of raw) = true ->
  has_char "{" (array_of raw) = true ->
  Sort.group_objects_with_comments (array_of raw) = ([], EmptyString)
  /\ Sort.main json_loads primary raw
     = Some (preamble_of raw ++ "[]" ++ postamble_of raw
             ++ final_newline (postamble_of raw)).
Proof.
  intros _ Hone Hbrace.
  assert (G : Sort.group_objects_with_comments (array_of raw) = ([], EmptyString)).
  { unfold Sort.group_objects_with_comments, splitlines_keepends.
    rewrite (splitlines_one_line _ _ Hone). cbn [append].
    destruct (array_of raw) as [|c s] eqn:E; [discriminate Hbrace|].
    cbn [fold_left]. unfold Sort.group_step. cbn [Sort.in_obj negb].
    rewrite has_char_strip by reflexivity. now rewrite Hbrace. }
  split; [exact G|].
  unfold Sort.main, preamble_of, array_of, postamble_of in *.
  destruct (extract_preamble_postamble raw) as [[pre arr] post].
  cbn [fst snd] in *. rewrite G. reflexivity.
Qed.

End Grouping.

(** ** The order of the sort *)

Section SortOrder.
Import PyStr Json Spec Laws.

Lemma string_compare_refl (s : string) : String.compare s s = Eq.
Proof.
  induction s as [|c s IH]; simpl; [reflexivity|].
  unfold Ascii.compare. now rewrite N.compare_refl.
Qed.

Lemma string_ltb_irrefl (s : string) : String.ltb s s = false.
Proof. unfold String.ltb. now rewrite string_compare_refl. Qed.

Lemma string_compare_trans (a : string) :
  forall b c,
    String.compare a b = Lt -> String.compare b c = Lt -> String.compare a c = Lt.
Proof.
  induction a as [|x a IH]; intros [|y b] [|z c]; simpl; try discriminate; auto.
  unfold Ascii.compare.
  destruct (N.compare_spec (N_of_ascii x) (N_of_ascii y)) as [Exy|Lxy|Gxy];
    try discriminate;
    destruct (N.compare_spec (N_of_ascii y) (N_of_ascii z)) as [Eyz|Lyz|Gyz];
    try discriminate; intros H1 H2.
  - rewrite Exy, Eyz, N.compare_refl. eauto.
  - rewrite Exy. now apply N.compare_lt_iff in Lyz as ->.
  - rewrite <- Eyz. now apply N.compare_lt_iff in Lxy as ->.
  - assert (L : (N_of_ascii x < N_of_ascii z)%N) by lia.
    now apply N.compare_lt_iff in L as ->.
Qed.

Lemma string_ltb_trans (a b c : string) :
  String.ltb a b = true -> String.ltb b c = true -> String.ltb a c = true.
Proof.
  unfold String.ltb. intros H1 H2.
  destruct (String.compare a b) eqn:E1; try discriminate.
  destruct (String.compare b c) eqn:E2; try discriminate.
  now rewrite (string_compare_trans a b c E1 E2).
Qed.

Lemma tok_eqb_eq (x y : Sort.tok) : Sort.tok_eqb x y = true -> x = y.
Proof.
  destruct x, y; simpl; try discriminate; intros H.
  - apply N.eqb_eq in H. now subst.
  - apply String.eqb_eq in H. now subst.
Qed.

Lemma tok_lt_irrefl (x : Sort.tok) : Sort.tok_lt x x = Some false.
Proof.
  destruct x; simpl; [now rewrite N.ltb_irrefl | now rewrite string_ltb_irrefl].
Qed.

Lemma tok_lt_trans (x y z : Sort.tok) :
  Sort.tok_lt x y = Some true -> Sort.tok_lt y z = Some true ->
  Sort.tok_lt x z = Some true.
Proof.
  destruct x, y, z; simpl; try discriminate; intros [= H1] [= H2]; f_equal.
  - apply N.ltb_lt in H1, H2. apply N.ltb_lt. lia.
  - eapply string_ltb_trans; eassumption.
Qed.

Lemma list_eqb_eq (a : list Sort.tok) :
  forall b, Sort.list_eqb a b = true -> a = b.
Proof.
  induction a as [|x a IH]; intros [|y b]; simpl; try discriminate; auto.
  intros H. apply andb_true_iff in H as [Hx Ha].
  now rewrite (tok_eqb_eq _ _ Hx), (IH _ Ha).
Qed.

Lemma list_eqb_refl (a : list Sort.tok) : Sort.list_eqb a a = true.
Proof. induction a as [|x a IH]; simpl; [reflexivity | now rewrite tok_eqb_refl]. Qed.

Lemma list_lt_irrefl (a : list Sort.tok) : Sort.list_lt a a = Some false.
Proof. induction a as [|x a IH]; simpl; [reflexivity | now rewrite tok_eqb_refl]. Qed.

Lemma list_lt_trans (a : list Sort.tok) :
  forall b c,
    Sort.list_lt a b = Some true -> Sort.list_lt b c = Some true ->
    Sort.list_lt a c = Some true.
Proof.
  induction a as [|x a IH]; intros [|y b] [|z c]; simpl; try discriminate; auto.
  destruct (Sort.tok_eqb x y) eqn:Exy; destruct (Sort.tok_eqb y z) eqn:Eyz;
    intros H1 H2.
  - apply tok_eqb_eq in Exy, Eyz. subst. rewrite tok_eqb_refl. eauto.
  - apply tok_eqb_eq in Exy. subst. now rewrite Eyz.
  - apply tok_eqb_eq in Eyz. subst. now rewrite Exy.
  - pose proof (tok_lt_trans _ _ _ H1 H2) as H3.
    destruct (Sort.tok_eqb x z) eqn:Exz; [|exact H3].
    apply tok_eqb_eq in Exz. subst. rewrite tok_lt_irrefl in H3. discriminate.
Qed.

Lemma mid_eqb_eq (a b : list Sort.tok + string) :
  Sort.mid_eqb a b = true -> a = b.
Proof.
  destruct a, b; simpl; try discriminate; intros H.
  - now rewrite (list_eqb_eq _ _ H).
  - apply String.eqb_eq in H. now subst.
Qed.

Lemma mid_lt_irrefl (a : list Sort.tok + string) : Sort.mid_lt a a = Some false.
Proof.
  destruct a; simpl; [apply list_lt_irrefl | now rewrite string_ltb_irrefl].
Qed.

Lemma mid_lt_trans (a b c : list Sort.tok + string) :
  Sort.mid_lt a b = Some true -> Sort.mid_lt b c = Some true ->
  Sort.mid_lt a c = Some true.
Proof.
  destruct a, b, c; simpl; try discriminate.
  - apply list_lt_trans.
  - intros [= H1] [= H2]. f_equal. eapply string_ltb_trans; eassumption.
Qed.

Lemma key_lt_irrefl (k : Sort.sort_key) : Sort.key_lt k k = Some false.
Proof.
  destruct k as [[a b] c]. unfold Sort.key_lt.
  rewrite list_eqb_refl. cbn [negb].
  assert (E : Sort.mid_eqb b b = true)
    by (destruct b; simpl; [apply list_eqb_refl | apply String.eqb_refl]).
  rewrite E. cbn [negb]. now rewrite string_ltb_irrefl.
Qed.

Lemma key_lt_trans (k1 k2 k3 : Sort.sort_key) :
  Sort.key_lt k1 k2 = Some true -> Sort.key_lt k2 k3 = Some true ->
  Sort.key_lt k1 k3 = Some true.
Proof.
  destruct k1 as [[a1 b1] c1], k2 as [[a2 b2] c2], k3 as [[a3 b3] c3].
  unfold Sort.key_lt.
  destruct (Sort.list_eqb a1 a2) eqn:A12; cbn [negb];
    destruct (Sort.list_eqb a2 a3) eqn:A23; cbn [negb].
  - apply list_eqb_eq in A12, A23. subst. rewrite list_eqb_refl. cbn [negb].
    destruct (Sort.mid_eqb b1 b2) eqn:B12; cbn [negb];
      destruct (Sort.mid_eqb b2 b3) eqn:B23; cbn [negb].
    + apply mid_eqb_eq in B12, B23. subst.
      assert (E : Sort.mid_eqb b3 b3 = true)
        by (destruct b3; simpl; [apply list_eqb_refl | apply String.eqb_refl]).
      rewrite E. cbn [negb]. intros [= H1] [= H2]. f_equal.
      eapply string_ltb_trans; eassumption.
    + apply mid_eqb_eq in B12. subst. now rewrite B23.
    + apply mid_eqb_eq in B23. subst. now rewrite B12.
    + intros H1 H2. pose proof (mid_lt_trans _ _ _ H1 H2) as H3.
      destruct (Sort.mid_eqb b1 b3) eqn:B13; [|exact H3].
      apply mid_eqb_eq in B13. subst. rewrite mid_lt_irrefl in H3. discriminate.
  - apply list_eqb_eq in A12. subst. now rewrite A23.
  - apply list_eqb_eq in A23. subst. now rewrite A12.
  - intros H1 H2. pose proof (list_lt_trans _ _ _ H1 H2) as H3.
    destruct (Sort.list_eqb a1 a3) eqn:A13; [|exact H3].
    apply list_eqb_eq in A13. subst. rewrite list_lt_irrefl in H3. discriminate.
Qed.

(** On the keys that the tool builds, a key that is less than another is
    not greater than it. *)
Lemma key_lt_asym (k1 k2 : Sort.sort_key) :
  built_key k1 -> built_key k2 ->
  Sort.key_lt k1 k2 = Some true -> Sort.key_lt k2 k1 = Some false.
Proof.
  intros B1 B2 H. destruct (key_lt_total k2 k1 B2 B1) as ([|] & E); [|exact E].
  pose proof (key_lt_trans _ _ _ H E) as C.
  rewrite key_lt_irrefl in C. discriminate.
Qed.

End SortOrder.

(** ** The sorted list *)

Section SortedList.
Import PyStr Json Spec Laws.

Context {A : Type}.

Lemma insert_by_key_perm (x : Sort.sort_key * A) (l l' : list (Sort.sort_key * A)) :
  Sort.insert_by_key x l = Some l' -> Permutation (x :: l) l'.
Proof.
  revert l'; induction l as [|y l IH]; simpl; intros l' H.
  - injection H as <-. apply Permutation_refl.
  - destruct (Sort.key_lt (fst x) (fst y)) as [[|]|]; try discriminate.
    + injection H as <-. apply Permutation_refl.
    + destruct (Sort.insert_by_key x l) as [l''|]; [|discriminate].
      injection H as <-. rewrite perm_swap. apply perm_skip, IH. reflexivity.
Qed.

Lemma insert_by_key_sorted (x : Sort.sort_key * A) (l l' : list (Sort.sort_key * A)) :
  built_key (fst x) -> Forall (fun y => built_key (fst y)) l ->
  StronglySorted (in_order fst) l ->
  Sort.insert_by_key x l = Some l' ->
  StronglySorted (in_order fst) l'.
Proof.
  intros Bx. revert l'. induction l as [|y l IH]; simpl; intros l' Bl Sl H.
  - injection H as <-. repeat constructor.
  - inversion Bl as [|? ? By Bl']; subst. inversion Sl as [|? ? Sl' Fy]; subst.
    destruct (Sort.key_lt (fst x) (fst y)) as [[|]|] eqn:E; try discriminate.
    + injection H as <-. constructor; [exact Sl|].
      constructor; [apply key_lt_asym; assumption|].
      rewrite Forall_forall in *. intros z Hz. unfold in_order.
      destruct (key_lt_total (fst z) (fst x) (Bl' z Hz) Bx) as ([|] & Ez); [|exact Ez].
      pose proof (key_lt_trans _ _ _ Ez E) as C.
      specialize (Fy z Hz). unfold in_order in Fy. congruence.
    + destruct (Sort.insert_by_key x l) as [l''|] eqn:El; [|discriminate].
      injection H as <-. constructor; [apply IH; auto|].
      apply insert_by_key_perm in El.
      apply (Permutation_Forall El). constructor; [exact E | exact Fy].
Qed.

Lemma key_eqb_eq (k1 k2 : Sort.sort_key) : key_eqb k1 k2 = true -> k1 = k2.
Proof.
  destruct k1 as [[a1 a2] a3], k2 as [[b1 b2] b3]. simpl. intros H.
  apply andb_true_iff in H as [H H3]. apply andb_true_iff in H as [H1 H2].
  apply list_eqb_eq in H1. apply mid_eqb_eq in H2. apply String.eqb_eq in H3.
  now subst.
Qed.

(** An element goes after the elements of the sorted list that have its
    key. *)
Lemma insert_by_key_filter (k : Sort.sort_key)
  (x : Sort.sort_key * A) (l l' : list (Sort.sort_key * A)) :
  built_key (fst x) -> Forall (fun y => built_key (fst y)) l ->
  StronglySorted (in_order fst) l ->
  Sort.insert_by_key x l = Some l' ->
  filter (fun y => key_eqb (fst y) k) l'
  = (filter (fun y => key_eqb (fst y) k) l
     ++ (if key_eqb (fst x) k then [x] else []))%list.
Proof.
  intros Bx. revert l'. induction l as [|y l IH]; simpl; intros l' Bl Sl H.
  - injection H as <-. reflexivity.
  - inversion Bl as [|? ? By Bl']; subst. inversion Sl as [|? ? Sl' Fy]; subst.
    destruct (Sort.key_lt (fst x) (fst y)) as [[|]|] eqn:E; try discriminate.
    + injection H as <-. cbn [filter].
      destruct (key_eqb (fst x) k) eqn:Px; [|now rewrite app_nil_r].
      apply key_eqb_eq in Px.
      assert (Py : key_eqb (fst y) k = false).
      { destruct (key_eqb (fst y) k) eqn:Py; [|reflexivity].
        apply key_eqb_eq in Py. rewrite Py, <- Px, key_lt_irrefl in E.
        discriminate. }
      rewrite Py.
      assert (Pl : filter (fun z : Sort.sort_key * A => key_eqb (fst z) k) l = []).
      { apply filter_none, forallb_forall. intros z Hz. apply negb_true_iff.
        destruct (key_eqb (fst z) k) eqn:Pz; [|reflexivity].
        apply key_eqb_eq in Pz. rewrite Forall_forall in Fy.
        specialize (Fy z Hz). unfold in_order in Fy.
        rewrite Pz, <- Px in Fy. congruence. }
      rewrite Pl. reflexivity.
    + destruct (Sort.insert_by_key x l) as [l''|] eqn:El; [|discriminate].
      injection H as <-. cbn [filter]. rewrite (IH l'' Bl' Sl' eq_refl).
      destruct (key_eqb (fst y) k); reflexivity.
Qed.

End SortedList.

Section SortedGroups.
Import PyStr Json Spec Laws.

Context {A : Type} (key : A -> Sort.sort_key).
Hypothesis key_built : forall x, built_key (key x).

Lemma ready_built (done : list (Sort.sort_key * A)) :
  ready key done -> Forall (fun y => built_key (fst y)) done.
Proof.
  intros [D _]. rewrite Forall_forall in *. intros p Hp.
  rewrite (D p Hp). apply key_built.
Qed.

Lemma sorted_fold (l : list A) :
  forall done,
    ready key done ->
    exists res,
      fold_left
        (fun acc x =>
           match acc with
           | Some done => Sort.insert_by_key (key x, x) done
           | None => None
           end) l (Some done) = Some res
      /\ ready key res
      /\ Permutation (map snd done ++ l) (map snd res)
      /\ forall k,
           filter (fun p => key_eqb (fst p) k) res
           = (filter (fun p => key_eqb (fst p) k) done
              ++ filter (fun p => key_eqb (fst p) k) (map (fun x => (key x, x)) l))%list.
Proof.
  induction l as [|x l IH]; intros done R; cbn [fold_left].
  - exists done. rewrite !app_nil_r.
    split; [reflexivity|]. split; [exact R|]. split; [apply Permutation_refl|].
    intros k. cbn [map filter]. now rewrite app_nil_r.
  - pose proof (ready_built done R) as B. destruct R as [D S].
    destruct (insert_by_key_total (key x, x) done (key_built x) B) as (done' & E & B').
    rewrite E.
    assert (R' : ready key done').
    { split.
      - apply (Permutation_Forall (insert_by_key_perm _ _ _ E)).
        constructor; [reflexivity | exact D].
      - apply (insert_by_key_sorted (key x, x) done done' (key_built x) B S E). }
    destruct (IH done' R') as (res & Ef & Rr & Pr & Fr).
    exists res. split; [exact Ef|]. split; [exact Rr|]. split.
    + rewrite <- Pr. apply insert_by_key_perm in E.
      apply (Permutation_map snd) in E. cbn [map snd] in E.
      rewrite <- E. apply Permutation_sym, Permutation_middle.
    + intros k. rewrite Fr.
      rewrite (insert_by_key_filter k (key x, x) done done' (key_built x) B S E).
      cbn [map filter fst]. rewrite <- app_assoc.
      destruct (key_eqb (key x) k); reflexivity.
Qed.

Lemma sorted_map_snd (res : list (Sort.sort_key * A)) :
  ready key res -> StronglySorted (in_order key) (map snd res).
Proof.
  intros [D S]. induction S as [|p res S IH F]; cbn [map]; [constructor|].
  inversion D as [|? ? Dp Dres]; subst.
  constructor; [now apply IH|].
  rewrite Forall_forall in *. intros g Hg.
  apply in_map_iff in Hg as (q & <- & Hq).
  specialize (F q Hq). unfold in_order in *.
  now rewrite <- Dp, <- (Dres q Hq).
Qed.

Lemma filter_map_snd (k : Sort.sort_key) (res : list (Sort.sort_key * A)) :
  Forall (fun p => fst p = key (snd p)) res ->
  filter (fun g => key_eqb (key g) k) (map snd res)
  = map snd (filter (fun p => key_eqb (fst p) k) res).
Proof.
  induction 1 as [|p res Dp D IH]; cbn [map filter]; [reflexivity|].
  rewrite <- Dp, IH. destruct (key_eqb (fst p) k); reflexivity.
Qed.

(** The list that [sorted] returns: the same elements, in the order of
    their keys, and those with the same key in the order of the input. *)
Lemma sorted_spec (l : list A) :
  exists l',
    Sort.sorted key l = Some l'
    /\ Permutation l l'
    /\ StronglySorted (in_order key) l'
    /\ forall k,
         filter (fun g => key_eqb (key g) k) l'
         = filter (fun g => key_eqb (key g) k) l.
Proof.
  unfold Sort.sorted.
  destruct (sorted_fold l []) as (res & -> & R & P & F).
  { split; constructor. }
  exists (map snd res). cbn [option_map].
  split; [reflexivity|]. split; [exact P|]. split; [now apply sorted_map_snd|].
  intros k. rewrite (filter_map_snd k res (proj1 R)), F. cbn [filter app].
    clear. induction l as [|x l IH]; cbn [map filter fst]; [reflexivity|].
    destruct (key_eqb (key x) k); cbn [map snd]; now rewrite IH.
Qed.

End SortedGroups.

Section SortedClaims.
Import PyStr Json Spec Laws.

Variable json_loads : string -> option jvalue.
Variable primary : string.

Lemma group_key_built (x : string * string) :
  built_key (group_key json_loads primary x).
Proof. apply extract_sort_keys_built. Qed.

(** X8.  The sort of the groups ends without an exception and gives the
    groups again, none lost and none twice, in an order in which no group
    is before a group with a smaller key. *)
Theorem X8_sorted_is_ordered_permutation (groups : list (string * string)) :
  exists sorted_groups,
    Sort.sorted (fun pair => Sort.extract_sort_keys json_loads (snd pair) primary)
                groups = Some sorted_groups
    /\ Permutation groups sorted_groups
    /\ StronglySorted
         (in_order (fun pair => Sort.extract_sort_keys json_loads (snd pair) primary))
         sorted_groups.
Proof.
  destruct (sorted_spec (group_key json_loads primary) group_key_built groups)
    as (l' & E & P & S & _).
  exists l'. auto.
Qed.

Lemma tok_lt_tie (x y : Sort.tok) :
  Sort.tok_lt x y = Some false -> Sort.tok_lt y x = Some false -> x = y.
Proof.
  destruct x as [m|s], y as [n|t]; simpl; try discriminate; intros [= H1] [= H2].
  - apply N.ltb_ge in H1, H2. f_equal. lia.
  - unfold String.ltb in *. rewrite String.compare_antisym in H2.
    destruct (String.compare s t) eqn:C; try discriminate.
    f_equal. now apply String.compare_eq_iff.
Qed.

Lemma list_lt_tie (a : list Sort.tok) :
  forall b,
    Sort.list_lt a b = Some false -> Sort.list_lt b a = Some false -> a = b.
Proof.
  induction a as [|x a IH]; intros [|y b]; simpl; try discriminate; auto.
  destruct (Sort.tok_eqb x y) eqn:E.
  - apply tok_eqb_eq in E. subst. rewrite tok_eqb_refl. intros H1 H2.
    f_equal. now apply IH.
  - intros H1 H2. destruct (Sort.tok_eqb y x) eqn:E'.
    + apply tok_eqb_eq in E'. subst. now rewrite tok_eqb_refl in E.
    + rewrite (tok_lt_tie x y H1 H2), tok_eqb_refl in E. discriminate.
Qed.

(** Two keys neither of which is less than the other are the same key. *)
Lemma key_lt_tie (k1 k2 : Sort.sort_key) :
  Sort.key_lt k1 k2 = Some false -> Sort.key_lt k2 k1 = Some false -> k1 = k2.
Proof.
  destruct k1 as [[a1 b1] c1], k2 as [[a2 b2] c2]. unfold Sort.key_lt.
  destruct (Sort.list_eqb a1 a2) eqn:A; cbn [negb].
  - apply list_eqb_eq in A. subst. rewrite list_eqb_refl. cbn [negb].
    destruct (Sort.mid_eqb b1 b2) eqn:B; cbn [negb].
    + apply mid_eqb_eq in B. subst.
      assert (E : Sort.mid_eqb b2 b2 = true)
        by (destruct b2; simpl; [apply list_eqb_refl | apply String.eqb_refl]).
      rewrite E. cbn [negb]. intros [= H1] [= H2].
      unfold String.ltb in *. rewrite String.compare_antisym in H2.
      destruct (String.compare c1 c2) eqn:C; try discriminate.
      apply String.compare_eq_iff in C. now subst.
    + intros H1 H2. exfalso.
      destruct (Sort.mid_eqb b2 b1) eqn:B'.
      * apply mid_eqb_eq in B'. subst.
        destruct b1; simpl in B; [now rewrite list_eqb_refl in B
                                 | now rewrite String.eqb_refl in B].
      * cbn [negb] in H2. destruct b1 as [x|s], b2 as [y|t]; simpl in *;
          try discriminate.
        -- rewrite (list_lt_tie x y H1 H2), list_eqb_refl in B. discriminate.
        -- injection H1 as H1. injection H2 as H2.
           unfold String.ltb in *. rewrite String.compare_antisym in H2.
           destruct (String.compare s t) eqn:C; try discriminate.
           apply String.compare_eq_iff in C. subst.
           now rewrite String.eqb_refl in B.
  - intros H1 H2. exfalso. destruct (Sort.list_eqb a2 a1) eqn:A'.
    + apply list_eqb_eq in A'. subst. now rewrite list_eqb_refl in A.
    + cbn [negb] in H2. rewrite (list_lt_tie a1 a2 H1 H2), list_eqb_refl in A.
      discriminate.
Qed.

(** X9.  The sort is stable: the groups that have a given key come out in
    the order in which they came in; and two groups are tied, neither key
    less than the other, only when their keys are the same. *)
Theorem X9_sort_is_stable (groups sorted_groups : list (string * string)) :
  Sort.sorted (fun pair => Sort.extract_sort_keys json_loads (snd pair) primary)
              groups = Some sorted_groups ->
  (forall k,
      filter (fun g => key_eqb (Sort.extract_sort_keys json_loads (snd g) primary) k)
             sorted_groups
      = filter (fun g => key_eqb (Sort.extract_sort_keys json_loads (snd g) primary) k)
               groups)
  /\ (forall g h : string * string,
        Sort.key_lt (Sort.extract_sort_keys json_loads (snd g) primary)
                    (Sort.extract_sort_keys json_loads (snd h) primary) = Some false ->
        Sort.key_lt (Sort.extract_sort_keys json_loads (snd h) primary)
                    (Sort.extract_sort_keys json_loads (snd g) primary) = Some false ->
        Sort.extract_sort_keys json_loads (snd g) primary
        = Sort.extract_sort_keys json_loads (snd h) primary).
Proof.
  intros H.
  destruct (sorted_spec (group_key json_loads primary) group_key_built groups)
    as (l' & E & _ & _ & F).
  unfold group_key in E. rewrite H in E. injection E as <-.
  split; [exact F|]. intros g h. apply key_lt_tie.
Qed.

Lemma strongly_sorted_before {B : Type} (R : B -> B -> Prop) (before : list B) :
  forall x after,
    StronglySorted R (before ++ x :: after) -> Forall (fun h => R h x) before.
Proof.
  induction before as [|h before IH]; intros x after S; [constructor|].
  inversion S as [|? ? S' F]; subst. constructor; [|eapply IH; eassumption].
  rewrite Forall_forall in F. apply F, in_elt.
Qed.

(** X10.  The objects that do not parse are written first: every group
    that the sort puts before a group with the key of a failure has the key
    of a failure itself. *)
Theorem X10_unparsed_first (groups before after : list (string * string))
  (g : string * string) :
  Sort.sorted (fun pair => Sort.extract_sort_keys json_loads (snd pair) primary)
              groups = Some (before ++ g :: after)%list ->
  Sort.extract_sort_keys json_loads (snd g) primary = Sort.failed_key ->
  Forall (fun h => Sort.extract_sort_keys json_loads (snd h) primary = Sort.failed_key)
         before.
Proof.
  intros H Hg.
  destruct (sorted_spec (group_key json_loads primary) group_key_built groups)
    as (l' & E & _ & S & _).
  unfold group_key in E. rewrite H in E. injection E as <-.
  apply strongly_sorted_before in S. rewrite Forall_forall in *.
  intros h Hh. specialize (S h Hh). unfold in_order, group_key in S. rewrite Hg in S.
  destruct (extract_sort_keys_built json_loads (snd h) primary)
    as [E|(a & b & c & E)]; [exact E|].
  rewrite E in S. exfalso. unfold Sort.key_lt, Sort.failed_key in S.
  destruct (natural_key_kinds a) as [_ Hne].
  destruct (key_of_text a); [contradiction|]. simpl in S. discriminate.
Qed.

End SortedClaims.

(** ** Ties of the natural key, and the two stripping steps *)

Section KeysAndStripping.
Import PyStr Json Common Spec Laws.

Lemma split_text_run_rest (p r : string) :
  no_digit p = true -> no_leading_digit r = true ->
  exists rest,
    forall d, digit_run d = true ->
              Re.split_on_digits (p ++ d ++ r) = p :: d :: rest.
Proof.
  intros Hp Hr.
  exists (match r with
          | EmptyString => [EmptyString]
          | String e r' => Re.split_digits (chr e) false r'
          end).
  intros d Hd. unfold Re.split_on_digits.
  rewrite split_text_prefix by exact Hp. cbn [append].
  destruct d as [|c d]; [discriminate|].
  unfold digit_run in Hd. simpl in Hd.
  apply andb_true_iff in Hd as [Hc Hd].
  cbn [append Re.split_digits]. rewrite Hc.
  rewrite split_run_prefix by exact Hd. cbn [append].
  destruct r as [|e r]; simpl; [reflexivity|].
  simpl in Hr. apply negb_true_iff in Hr. now rewrite Hr.
Qed.

(** X11.  Two texts of code points below 128 that differ only in one digit
    run, after a text without digits, have the same natural key when the
    two runs have the same value and no more than 4300 digits each: leading
    zeros do not count, and the sort then falls back on the next field. *)
Theorem X11_equal_runs_tie (p d1 d2 r : string) :
  isascii p = true -> isascii r = true ->
  no_digit p = true ->
  digit_run d1 = true -> digit_run d2 = true ->
  no_leading_digit r = true ->
  length d1 <= Sort.int_max_str_digits ->
  length d2 <= Sort.int_max_str_digits ->
  Sort.int_of_digits d1 = Sort.int_of_digits d2 ->
  Sort.natural_key (p ++ d1 ++ r) = Sort.natural_key (p ++ d2 ++ r).
Proof.
  intros _ _ Hp H1 H2 Hr L1 L2 E.
  destruct (split_text_run_rest p r Hp Hr) as (rest & Hrest).
  unfold Sort.natural_key. rewrite (Hrest d1 H1), (Hrest d2 H2).
  cbn [Sort.key_elements]. unfold Sort.key_element, Sort.py_int.
  unfold digit_run in H1, H2. apply Nat.leb_le in L1, L2.
  now rewrite (no_digit_not_run _ Hp), H1, H2, L1, L2, E.
Qed.

Lemma sub_comments_resume (keep : bool) (s : string) :
  Re.sub_comments 0 keep s = Re.sub_comments 0 true s.
Proof. destruct s; reflexivity. Qed.

(** The characters of a match are copied, or dropped, and the scan goes on
    after them. *)
Lemma sub_comments_skip (m : string) :
  forall keep rest,
    Re.sub_comments (length m) keep (m ++ rest)
    = (if keep then m else EmptyString) ++ Re.sub_comments 0 true rest.
Proof.
  induction m as [|c m IH]; intros keep rest; cbn [length append].
  - rewrite sub_comments_resume. now destruct keep.
  - cbn [Re.sub_comments]. rewrite IH. now destruct keep.
Qed.

Lemma string_body_literal (body rest : string) :
  literal_body body = true ->
  Re.string_body (body ++ String DQ rest) = Some (S (length body)).
Proof.
  revert rest.
  assert (G : forall n body rest, length body <= n -> literal_body body = true ->
              Re.string_body (body ++ String DQ rest) = Some (S (length body))).
  { induction n as [|n IH]; intros [|c b] rest0 Hn H; simpl in *; try lia;
      try reflexivity.
    destruct (Ascii.eqb c DQ); [discriminate|].
    destruct (Ascii.eqb c BSL).
    - destruct b as [|e b]; [discriminate|]. simpl in *.
      rewrite IH by (auto; lia). reflexivity.
    - rewrite IH by (auto; lia). reflexivity. }
  intros rest H. now apply (G (length body)).
Qed.

Lemma line_rest_comment (c rest : string) :
  has_char LF c = false -> Re.line_rest (c ++ String LF rest) = length c.
Proof.
  induction c as [|x c IH]; simpl; intros H; [reflexivity|].
  apply orb_false_iff in H as [Hx Hc]. now rewrite Hx, IH.
Qed.

Lemma line_rest_end (c : string) :
  has_char LF c = false -> Re.line_rest c = length c.
Proof.
  induction c as [|x c IH]; simpl; intros H; [reflexivity|].
  apply orb_false_iff in H as [Hx Hc]. now rewrite Hx, IH.
Qed.

Lemma prefix_char (a b : ascii) (s : string) :
  prefix (chr a) (String b s) = Ascii.eqb a b.
Proof.
  unfold chr. cbn [prefix]. destruct (ascii_dec a b) as [->|N].
  - rewrite Ascii.eqb_refl. now destruct s.
  - symmetry. now apply Ascii.eqb_neq.
Qed.

Lemma prefix_cons (a b : ascii) (p s : string) :
  prefix (String a p) (String b s) = Ascii.eqb a b && prefix p s.
Proof.
  cbn [prefix]. destruct (ascii_dec a b) as [->|N].
  - now rewrite Ascii.eqb_refl.
  - apply Ascii.eqb_neq in N. now rewrite N.
Qed.

Lemma block_rest_comment (c rest : string) :
  contains "*/" c = false ->
  Re.block_rest (c ++ String "*" (String "/" rest)) = Some (length c + 2).
Proof.
  induction c as [|x c IH]; intros H.
  - cbn [append Re.block_rest length]. change "/" with (chr "/").
    now rewrite prefix_char.
  - cbn [append Re.block_rest length].
    cbn [contains] in H. apply orb_false_iff in H as [Hp Hc].
    rewrite (IH Hc). cbn [option_map Nat.add].
    destruct (Ascii.eqb_spec x "*") as [->|]; [|reflexivity].
    destruct c as [|y c]; cbn [append]; change "/" with (chr "/");
      rewrite prefix_char; [reflexivity|].
    change "*/" with (String "*" (chr "/")) in Hp.
    rewrite prefix_cons, prefix_char, Ascii.eqb_refl in Hp. cbn [andb] in Hp.
    now rewrite Hp.
Qed.

(** X12.  Where the scan of [strip_json_comments] stands, a whole string
    literal is copied as it is, whatever comment openers it holds; a line
    comment is dropped up to the line feed, which stays, or to the end of
    the text; a block comment is dropped with its closing; and a character
    that opens neither is copied. *)
Theorem X12_strip_json_comments_steps :
  (forall body rest,
      literal_body body = true ->
      strip_json_comments (String DQ (body ++ String DQ rest))
      = String DQ (body ++ String DQ (strip_json_comments rest)))
  /\ (forall c rest,
        has_char LF c = false ->
        strip_json_comments ("//" ++ c ++ String LF rest)
        = String LF (strip_json_comments rest))
  /\ (forall c,
        has_char LF c = false -> strip_json_comments ("//" ++ c) = EmptyString)
  /\ (forall c rest,
        contains "*/" c = false ->
        strip_json_comments ("/*" ++ c ++ "*/" ++ rest) = strip_json_comments rest)
  /\ (forall x rest,
        Ascii.eqb x DQ = false -> Ascii.eqb x "/" = false ->
        strip_json_comments (String x rest) = String x (strip_json_comments rest)).
Proof.
  unfold strip_json_comments. repeat apply conj.
  - intros body rest H. cbn [Re.sub_comments Re.token_at].
    rewrite Ascii.eqb_refl, (string_body_literal body rest H). cbn [option_map].
    f_equal.
    replace (body ++ String DQ rest) with ((body ++ chr DQ) ++ rest)
      by (rewrite append_assoc; reflexivity).
    replace (S (length body)) with (length (body ++ chr DQ))
      by (rewrite length_append; simpl; lia).
    rewrite sub_comments_skip, append_assoc. reflexivity.
  - intros c rest H. cbn [append Re.sub_comments Re.token_at].
    cbn. rewrite (line_rest_comment c rest H).
    cbn [Re.sub_comments].
    rewrite (sub_comments_skip c false (String LF rest)). reflexivity.
  - intros c H. cbn [append Re.sub_comments Re.token_at].
    cbn. rewrite (line_rest_end c H). cbn [Re.sub_comments].
    rewrite <- (append_nil_r c) at 2.
    rewrite (sub_comments_skip c false EmptyString). reflexivity.
  - intros c rest H. cbn [append Re.sub_comments Re.token_at].
    cbn. rewrite (block_rest_comment c rest H). cbn [option_map Re.sub_comments].
    replace (c ++ String "*" (String "/" rest)) with ((c ++ "*/") ++ rest)
      by (rewrite append_assoc; reflexivity).
    replace (length c + 2) with (length (c ++ "*/"))
      by (rewrite length_append; reflexivity).
    apply (sub_comments_skip (c ++ "*/") false rest).
  - intros x rest H1 H2. cbn [Re.sub_comments Re.token_at]. now rewrite H1, H2.
Qed.

Lemma spaces_then_close_run (ws : string) (b : ascii) (rest : string) :
  all_space ws = true ->
  Ascii.eqb b "}" || Ascii.eqb b "]" = true ->
  Re.spaces_then_close (ws ++ String b rest) = Some (length ws).
Proof.
  intros Hw Hb. induction ws as [|c ws IH]; cbn [append Re.spaces_then_close length].
  - now rewrite Hb.
  - simpl in Hw. apply andb_true_iff in Hw as [Hc Hw].
    rewrite Hc, (IH Hw).
    assert (N : Ascii.eqb c "}" || Ascii.eqb c "]" = false).
    { destruct (Ascii.eqb_spec c "}") as [->|]; [discriminate Hc|].
      destruct (Ascii.eqb_spec c "]") as [->|]; [discriminate Hc|]. reflexivity. }
    now rewrite N.
Qed.

Lemma sub_trailing_commas_skip (m rest : string) :
  Re.sub_trailing_commas (length m) (m ++ rest) = Re.sub_trailing_commas 0 rest.
Proof.
  induction m as [|c m IH]; cbn [length append]; [reflexivity|].
  cbn [Re.sub_trailing_commas]. exact IH.
Qed.

Lemma spaces_then_close_other (ws : string) (x : ascii) (rest : string) :
  all_space ws = true ->
  isspace x = false ->
  Ascii.eqb x "}" || Ascii.eqb x "]" = false ->
  Re.spaces_then_close (ws ++ String x rest) = None.
Proof.
  intros Hw Hx Hb. induction ws as [|c ws IH]; cbn [append Re.spaces_then_close].
  - now rewrite Hb, Hx.
  - simpl in Hw. apply andb_true_iff in Hw as [Hc Hw].
    rewrite Hc, (IH Hw).
    assert (N : Ascii.eqb c "}" || Ascii.eqb c "]" = false).
    { destruct (Ascii.eqb_spec c "}") as [->|]; [discriminate Hc|].
      destruct (Ascii.eqb_spec c "]") as [->|]; [discriminate Hc|]. reflexivity. }
    now rewrite N.
Qed.

Lemma spaces_then_close_end (ws : string) :
  all_space ws = true -> Re.spaces_then_close ws = None.
Proof.
  intros Hw. induction ws as [|c ws IH]; cbn [Re.spaces_then_close]; [reflexivity|].
  simpl in Hw. apply andb_true_iff in Hw as [Hc Hw].
  rewrite Hc, (IH Hw).
  assert (N : Ascii.eqb c "}" || Ascii.eqb c "]" = false).
  { destruct (Ascii.eqb_spec c "}") as [->|]; [discriminate Hc|].
    destruct (Ascii.eqb_spec c "]") as [->|]; [discriminate Hc|]. reflexivity. }
  now rewrite N.
Qed.

(** X13.  [strip_trailing_commas] drops a comma together with the white
    space after it when a closing brace or bracket follows, whether or not
    the comma is inside a string literal; it keeps a comma when the white
    space after it is followed by another character, of a code point below
    128, or by the end of the text; and it keeps every other character. *)
Theorem X13_strip_trailing_commas_steps :
  (forall ws b rest,
      all_space ws = true ->
      Ascii.eqb b "}" || Ascii.eqb b "]" = true ->
      strip_trailing_commas ("," ++ ws ++ String b rest)
      = String b (strip_trailing_commas rest))
  /\ (forall ws x rest,
        all_space ws = true ->
        isascii_char x = true ->
        isspace x = false ->
        Ascii.eqb x "}" || Ascii.eqb x "]" = false ->
        strip_trailing_commas ("," ++ ws ++ String x rest)
        = "," ++ strip_trailing_commas (ws ++ String x rest))
  /\ (forall ws,
        all_space ws = true ->
        strip_trailing_commas ("," ++ ws) = "," ++ strip_trailing_commas ws)
  /\ (forall x rest,
        Ascii.eqb x "," = false ->
        strip_trailing_commas (String x rest) = String x (strip_trailing_commas rest)).
Proof.
  assert (K : forall rest,
             Re.spaces_then_close rest = None ->
             Re.sub_trailing_commas 0 ("," ++ rest)
             = "," ++ Re.sub_trailing_commas 0 rest).
  { intros rest H. cbn [append Re.sub_trailing_commas]. cbn. now rewrite H. }
  unfold strip_trailing_commas. repeat apply conj.
  - intros ws b rest Hw Hb. cbn [append Re.sub_trailing_commas].
    cbn. rewrite (spaces_then_close_run ws b rest Hw Hb).
    rewrite (sub_trailing_commas_skip ws (String b rest)).
    cbn [Re.sub_trailing_commas].
    assert (N : Ascii.eqb b "," = false).
    { destruct (Ascii.eqb_spec b ",") as [->|]; [discriminate Hb | reflexivity]. }
    now rewrite N.
  - intros ws x rest Hw _ Hx Hb. apply K. now apply spaces_then_close_other.
  - intros ws Hw. apply K. now apply spaces_then_close_end.
  - intros x rest H. cbn [Re.sub_trailing_commas]. now rewrite H.
Qed.

End KeysAndStripping.

(** ** The lines of a text *)

Section Lines.
Import PyStr Laws.

Lemma ends_cr_snoc (cur : string) (c : ascii) :
  ends_cr (cur ++ chr c) = Ascii.eqb c CR.
Proof.
  induction cur as [|x cur IH]; [reflexivity|].
  cbn [append ends_cr]. destruct (cur ++ chr c) eqn:E; [|exact IH].
  destruct cur; discriminate.
Qed.

(** A complete line is split off as it is, unless it ends with a CR and an
    LF follows. *)
Lemma splitlines_complete (l : string) :
  forall cur s,
    complete_line l = true ->
    ends_cr l && starts_lf s = false ->
    splitlines_from cur (l ++ s) = (cur ++ l) :: splitlines_from EmptyString s.
Proof.
  induction l as [|c l IH]; intros cur s Hc Hm; [discriminate|].
  cbn [append splitlines_from]. cbn [complete_line] in Hc.
  destruct (Ascii.eqb_spec c CR) as [->|Hcr].
  - apply orb_true_iff in Hc as [Hc|Hc]; apply String.eqb_eq in Hc; subst l.
    + cbn [append]. cbn [ends_cr] in Hm. rewrite Ascii.eqb_refl in Hm.
      destruct s as [|d s]; [reflexivity|]. cbn in Hm. now rewrite Hm.
    + cbn [append chr]. rewrite Ascii.eqb_refl. reflexivity.
  - destruct (islinebreak c) eqn:El.
    + apply String.eqb_eq in Hc. subst l. reflexivity.
    + rewrite IH; [now rewrite append_assoc | exact Hc |].
      destruct l; [discriminate Hc | exact Hm].
Qed.

Lemma one_line_append (a b : string) :
  one_line (a ++ b) = one_line a && one_line b.
Proof.
  induction a as [|c a IH]; cbn [append one_line]; [reflexivity|].
  now rewrite IH, andb_assoc.
Qed.

Lemma complete_snoc (cur term : string) :
  one_line cur = true -> complete_line term = true ->
  complete_line (cur ++ term) = true.
Proof.
  intros Hc Ht. induction cur as [|c cur IH]; [exact Ht|].
  cbn [append complete_line]. cbn [one_line] in Hc.
  apply andb_true_iff in Hc as [Hl Hc]. apply negb_true_iff in Hl.
  rewrite Hl. destruct (Ascii.eqb_spec c CR) as [->|]; [discriminate Hl|].
  now apply IH.
Qed.

Lemma starts_lf_append (a b : string) :
  a <> EmptyString -> starts_lf (a ++ b) = starts_lf a.
Proof. destruct a; [contradiction | reflexivity]. Qed.

(** The first line of a split starts as the text does. *)
Lemma splitlines_head (n : nat) :
  forall s cur l rest,
    length s <= n ->
    splitlines_from cur s = l :: rest ->
    starts_lf l = starts_lf (cur ++ s).
Proof.
  induction n as [|n IH]; intros [|c s] cur l rest Hn H; simpl in Hn; try lia.
  - cbn [splitlines_from] in H. destruct cur; [discriminate|].
    injection H as <- <-. now rewrite append_nil_r.
  - cbn [splitlines_from] in H. destruct cur; [discriminate|].
    injection H as <- <-. now rewrite append_nil_r.
  - cbn [splitlines_from] in H.
    assert (G : forall x, starts_lf ((cur ++ chr c) ++ x) = starts_lf (cur ++ String c s)).
    { intros x. destruct cur; reflexivity. }
    destruct (Ascii.eqb_spec c CR) as [->|Hcr].
    + destruct s as [|d s].
      * injection H as <- <-. rewrite <- (append_nil_r (cur ++ chr CR)). apply G.
      * destruct (Ascii.eqb d LF); injection H as <- <-.
        -- change (String CR (chr LF)) with (chr CR ++ chr LF).
           rewrite <- append_assoc. apply G.
        -- rewrite <- (append_nil_r (cur ++ chr CR)). apply G.
    + destruct (islinebreak c).
      * injection H as <- <-. rewrite <- (append_nil_r (cur ++ chr c)). apply G.
      * apply IH in H; [|lia]. rewrite H, append_assoc. reflexivity.
Qed.

Lemma lines_wf_cons (l : string) (rest : list string) :
  complete_line l = true ->
  ends_cr l = false \/ match rest with l' :: _ => starts_lf l' = false | [] => True end ->
  lines_wf rest = true ->
  lines_wf (l :: rest) = true.
Proof.
  intros Hc Hm Hr. cbn [lines_wf]. rewrite Hr, Hc.
  destruct rest as [|l' rest]; [reflexivity|].
  destruct Hm as [-> | ->]; [reflexivity | now rewrite andb_false_r].
Qed.

(** The lines of a split are well formed. *)
Lemma splitlines_wf (n : nat) :
  forall s cur,
    length s <= n -> one_line cur = true ->
    lines_wf (splitlines_from cur s) = true.
Proof.
  induction n as [|n IH]; intros [|c s] cur Hn Hcur; simpl in Hn; try lia.
  - cbn [splitlines_from]. destruct cur as [|x cur]; [reflexivity|].
    cbn [lines_wf]. unfold open_line. rewrite Hcur. now rewrite orb_true_r.
  - cbn [splitlines_from]. destruct cur as [|x cur]; [reflexivity|].
    cbn [lines_wf]. unfold open_line. rewrite Hcur. now rewrite orb_true_r.
  - cbn [splitlines_from]. destruct (Ascii.eqb_spec c CR) as [->|Hcr].
    + destruct s as [|d s].
      * apply lines_wf_cons; [now apply complete_snoc | now right | reflexivity].
      * simpl in Hn. destruct (Ascii.eqb_spec d LF) as [->|Hd].
        -- apply lines_wf_cons; [now apply complete_snoc| |apply IH; [lia|reflexivity]].
           left. change (String CR (chr LF)) with (chr CR ++ chr LF).
           rewrite <- append_assoc. apply ends_cr_snoc.
        -- apply lines_wf_cons; [now apply complete_snoc| |apply IH; [simpl; lia|reflexivity]].
           right. destruct (splitlines_from EmptyString (String d s)) as [|l' r] eqn:E;
             [exact I|].
           rewrite (splitlines_head (length (String d s)) _ _ _ _ (le_n _) E).
           cbn. now apply Ascii.eqb_neq.
    + destruct (islinebreak c) eqn:El.
      * apply lines_wf_cons; [| |apply IH; [lia|reflexivity]].
        -- apply complete_snoc; [exact Hcur|]. cbn [chr complete_line].
           apply Ascii.eqb_neq in Hcr. now rewrite Hcr, El.
        -- left. rewrite ends_cr_snoc. now apply Ascii.eqb_neq.
      * apply IH; [lia|]. rewrite one_line_append, Hcur. cbn. now rewrite El.
Qed.

Lemma complete_nonempty (l : string) :
  complete_line l || open_line l = true -> l <> EmptyString.
Proof. destruct l; [discriminate | discriminate]. Qed.

Lemma lines_wf_head_nonempty (l : string) (rest : list string) :
  lines_wf (l :: rest) = true -> l <> EmptyString.
Proof.
  cbn [lines_wf]. intros H. apply andb_true_iff in H as [H _].
  destruct rest; [now apply complete_nonempty|].
  apply andb_true_iff in H as [H _]. destruct l; discriminate.
Qed.

(** Well-formed lines, put together and split again, are the same lines. *)
Lemma splitlines_join (ls : list string) :
  lines_wf ls = true -> splitlines_keepends (join ls) = ls.
Proof.
  unfold splitlines_keepends.
  induction ls as [|l rest IH]; intros H; [reflexivity|].
  pose proof H as H0. cbn [lines_wf] in H. apply andb_true_iff in H as [Hl Hr].
  cbn [join]. destruct rest as [|l' rest'].
  - cbn [join]. rewrite append_nil_r.
    apply orb_true_iff in Hl as [Hc|Ho].
    + rewrite <- (append_nil_r l) at 1.
      rewrite splitlines_complete; [reflexivity | exact Hc | now rewrite andb_false_r].
    + unfold open_line in Ho. apply andb_true_iff in Ho as [Ho Hne].
      rewrite (splitlines_one_line l EmptyString Ho). cbn [append].
      destruct l; [discriminate Hne | reflexivity].
  - apply andb_true_iff in Hl as [Hc Hm]. apply negb_true_iff in Hm.
    rewrite splitlines_complete; [now rewrite (IH Hr) | exact Hc |].
    cbn [join]. rewrite starts_lf_append; [exact Hm|].
    now apply (lines_wf_head_nonempty l' rest').
Qed.

Lemma splitlines_keepends_wf (s : string) : lines_wf (splitlines_keepends s) = true.
Proof. apply (splitlines_wf (length s)); [apply le_n | reflexivity]. Qed.

End Lines.

(** ** The units of the removal tool as lines *)

Section UnitsAsLines.
Import PyStr Common Spec Laws.

Lemma gather_comments_lines (lines : list string) :
  forall acc comments rest,
    Remove.gather_comments acc lines = (comments, rest) ->
    exists cl,
      lines = (cl ++ rest)%list /\ comments = acc ++ join cl
      /\ forallb (fun l => negb (has_char "{" l)) cl = true.
Proof.
  induction lines as [|line lines IH]; simpl; intros acc comments rest H.
  - injection H as <- <-. exists []. now rewrite append_nil_r.
  - destruct (has_char "{" line) eqn:E; simpl in H.
    + injection H as <- <-. exists []. now rewrite append_nil_r.
    + apply IH in H as (cl & -> & -> & Hcl). exists (line :: cl).
      cbn [app join forallb]. rewrite E, Hcl, append_assoc. auto.
Qed.

Lemma gather_comments_exact (cl rest : list string) (acc : string) :
  forallb (fun l => negb (has_char "{" l)) cl = true ->
  match rest with l :: _ => has_char "{" l = true | [] => True end ->
  Remove.gather_comments acc (cl ++ rest) = (acc ++ join cl, rest).
Proof.
  revert acc. induction cl as [|l cl IH]; intros acc Hcl Hrest; cbn [app join].
  - rewrite append_nil_r. destruct rest as [|l rest]; [reflexivity|].
    simpl. now rewrite Hrest.
  - cbn [forallb] in Hcl. apply andb_true_iff in Hcl as [Hl Hcl].
    cbn [Remove.gather_comments]. rewrite Hl, IH by assumption.
    now rewrite append_assoc.
Qed.

Lemma gather_trailing_lines (lines : list string) :
  forall acc trailing rest,
    Remove.gather_trailing acc lines = (trailing, rest) ->
    exists tl,
      lines = (tl ++ rest)%list /\ trailing = acc ++ join tl
      /\ forallb Remove.is_trailing tl = true
      /\ match rest with l :: _ => Remove.is_trailing l = false | [] => True end.
Proof.
  induction lines as [|line lines IH]; simpl; intros acc trailing rest H.
  - injection H as <- <-. exists []. now rewrite append_nil_r.
  - destruct (Remove.is_trailing line) eqn:E.
    + apply IH in H as (tl & -> & -> & Htl & Hr). exists (line :: tl).
      cbn [app join forallb]. rewrite E, Htl, append_assoc. auto.
    + injection H as <- <-. exists []. now rewrite append_nil_r.
Qed.

Lemma gather_trailing_exact (tl rest : list string) (acc : string) :
  forallb Remove.is_trailing tl = true ->
  match rest with l :: _ => Remove.is_trailing l = false | [] => True end ->
  Remove.gather_trailing acc (tl ++ rest) = (acc ++ join tl, rest).
Proof.
  revert acc. induction tl as [|l tl IH]; intros acc Htl Hrest; cbn [app join].
  - rewrite append_nil_r. destruct rest as [|l rest]; [reflexivity|].
    simpl. now rewrite Hrest.
  - cbn [forallb] in Htl. apply andb_true_iff in Htl as [Hl Htl].
    cbn [Remove.gather_trailing]. rewrite Hl, IH by assumption.
    now rewrite append_assoc.
Qed.

(** Where the object loop stops before the end of the lines, it stops
    there whatever follows. *)
Lemma gather_object_lines (lines : list string) :
  forall acc depth obj rest,
    Remove.gather_object acc depth true lines = (obj, rest) ->
    exists ol,
      lines = (ol ++ rest)%list /\ obj = acc ++ join ol
      /\ (rest <> [] ->
          forall acc' rest',
            Remove.gather_object acc' depth true (ol ++ rest')
            = (acc' ++ join ol, rest')).
Proof.
  induction lines as [|line lines IH]; intros acc depth obj rest H.
  - injection H as <- <-. exists []. rewrite append_nil_r.
    repeat split; auto. intros C. contradiction.
  - cbn [Remove.gather_object orb] in H.
    set (d1 := if has_char "{" line then (depth + Z.of_nat (count "{" line))%Z else depth) in *.
    destruct (has_char "}" line) eqn:Ec.
    + destruct ((d1 - Z.of_nat (count "}" line)) =? 0)%Z eqn:Ez.
      * injection H as <- <-. exists [line]. cbn [app join].
        rewrite append_nil_r. repeat split; auto.
        intros _ acc' rest'. cbn [Remove.gather_object orb]. fold d1.
        now rewrite Ec, Ez.
      * apply IH in H as (ol & -> & -> & Hcl). exists (line :: ol).
        cbn [app join]. rewrite append_assoc. repeat split; auto.
        intros Hne acc' rest'. cbn [Remove.gather_object orb]. fold d1.
        rewrite Ec, Ez, (Hcl Hne). now rewrite append_assoc.
    + apply IH in H as (ol & -> & -> & Hcl). exists (line :: ol).
      cbn [app join]. rewrite append_assoc. repeat split; auto.
      intros Hne acc' rest'. cbn [Remove.gather_object orb]. fold d1.
      rewrite Ec, (Hcl Hne). now rewrite append_assoc.
Qed.

(** The object loop from its first line, which has an opening brace. *)
Lemma gather_object_first (line : string) (lines : list string) obj rest :
  has_char "{" line = true ->
  Remove.gather_object EmptyString 0 false (line :: lines) = (obj, rest) ->
  exists ol,
    (line :: lines) = (ol ++ rest)%list /\ obj = join ol
    /\ match ol with l :: _ => has_char "{" l = true | [] => False end
    /\ (rest <> [] ->
        forall rest',
          Remove.gather_object EmptyString 0 false (ol ++ rest') = (join ol, rest')).
Proof.
  intros Hb H. cbn [Remove.gather_object] in H. rewrite Hb in H.
  cbn [orb append] in H.
  destruct (has_char "}" line) eqn:Ec.
  - destruct ((0 + Z.of_nat (count "{" line) - Z.of_nat (count "}" line)) =? 0)%Z eqn:Ez.
    + injection H as <- <-. exists [line]. cbn [app join].
      rewrite append_nil_r. repeat split; auto.
      intros _ rest'. cbn [Remove.gather_object]. rewrite Hb. cbn [orb append].
      now rewrite Ec, Ez.
    + apply gather_object_lines in H as (ol & -> & -> & Hcl). exists (line :: ol).
      cbn [app join]. repeat split; auto.
      intros Hne rest'. cbn [Remove.gather_object]. rewrite Hb. cbn [orb append].
      now rewrite Ec, Ez, (Hcl Hne).
  - apply gather_object_lines in H as (ol & -> & -> & Hcl). exists (line :: ol).
    cbn [app join]. repeat split; auto.
    intros Hne rest'. cbn [Remove.gather_object]. rewrite Hb. cbn [orb append].
    now rewrite Ec, (Hcl Hne).
Qed.

Lemma seg_later_ok (us : list LUnit) : seg us -> Forall head_ok (tl us).
Proof. intros [| |]; simpl; auto. Qed.

Lemma seg_first_lines (u : LUnit) (us : list LUnit) :
  seg (u :: us) -> exists l ls, lines_of u = l :: ls.
Proof.
  intros H. inversion H as [|cl ol Hcl [Ho _]|cl ol tl0 us0 Hcl [Ho _] Htl Hok Hs]; subst;
    cbn [lines_of]; destruct ol as [|l ol]; try contradiction;
    destruct cl as [|c cl]; cbn [app]; eauto.
Qed.

(** The loop of [split_units] cuts the lines into units of this form,
    followed by the comment lines that it drops. *)
Lemma split_units_loop_seg (fuel : nat) :
  forall lines,
    List.length lines <= fuel ->
    exists us dl,
      Remove.split_units_loop fuel lines = (map to_unit us, join dl)
      /\ lines = (flatten us ++ dl)%list
      /\ seg us.
Proof.
  induction fuel as [|fuel IH]; intros [|l0 lines0] Hf; simpl in Hf; try lia;
    try (exists [], []; repeat split; constructor).
  cbn [Remove.split_units_loop].
  destruct (Remove.gather_comments EmptyString (l0 :: lines0))
    as [comments lines1] eqn:E1.
  pose proof (gather_comments_spec _ _ _ _ E1) as (_ & L1 & B1).
  apply gather_comments_lines in E1 as (cl & Ecl & -> & Hcl).
  destruct lines1 as [|line lines1].
  { exists [], cl. rewrite app_nil_r in Ecl. subst cl. repeat split; constructor. }
  destruct (Remove.gather_object EmptyString 0 false (line :: lines1))
    as [obj lines2] eqn:E2.
  pose proof (gather_object_head _ _ _ _ B1 E2) as (_ & L2).
  pose proof E2 as E2'.
  apply (gather_object_first _ _ _ _ B1) in E2 as (ol & Eol & -> & Hol & Hclosed).
  destruct (Remove.gather_trailing EmptyString lines2) as [trailing lines3] eqn:E3.
  pose proof (gather_trailing_spec _ _ _ _ E3) as (_ & L3).
  apply gather_trailing_lines in E3 as (tl0 & Etl & -> & Htl & Hstop).
  destruct (IH lines3) as (us & dl & El & Eus & Hseg); [simpl in *; lia|].
  rewrite El.
  destruct lines2 as [|l2 lines2'].
  - (* the object runs to the end of the lines *)
    destruct tl0; [|discriminate]. destruct lines3; [|discriminate].
    destruct us as [|u us]; [|exfalso].
    + destruct dl; [|discriminate].
      exists [(cl, ol, [])], []. rewrite app_nil_r in Eol.
      split; [reflexivity|]. split.
      * unfold flatten. cbn [map List.concat lines_of]. rewrite !app_nil_r.
        now rewrite Ecl, Eol.
      * apply seg_last; [exact Hcl|]. split; [exact Hol|].
        rewrite <- Eol in *. exact E2'.
    + destruct (seg_first_lines u us Hseg) as (l & ls & E).
      unfold flatten in Eus. cbn [map List.concat] in Eus. rewrite E in Eus. discriminate.
  - exists ((cl, ol, tl0) :: us), dl.
    split; [reflexivity|]. split.
    + unfold flatten. cbn [map List.concat lines_of]. fold (flatten us).
      rewrite Ecl, Eol, Etl, Eus, <- !app_assoc. reflexivity.
    + apply seg_cons; auto.
      * split; [exact Hol|]. apply Hclosed. discriminate.
      * destruct us as [|u us]; [constructor|].
        constructor; [|apply (seg_later_ok _ Hseg)].
        destruct (seg_first_lines u us Hseg) as (l & ls & E).
        unfold head_ok. rewrite E.
        unfold flatten in Eus. cbn [map List.concat] in Eus. rewrite E in Eus.
        subst lines3. exact Hstop.
Qed.

End UnitsAsLines.

Section Resegmentation.
Import PyStr Json Common Spec Laws.

Lemma split_units_loop_step (fuel : nat) (l : string) (lines : list string) :
  Remove.split_units_loop (S fuel) (l :: lines)
  = let '(comments, lines1) := Remove.gather_comments EmptyString (l :: lines) in
    match lines1 with
    | [] => ([], comments)
    | _ =>
        let '(obj_lines, lines2) :=
          Remove.gather_object EmptyString 0 false lines1 in
        let '(trailing, lines3) := Remove.gather_trailing EmptyString lines2 in
        let '(units, dropped) := Remove.split_units_loop fuel lines3 in
        ((comments, obj_lines, trailing) :: units, dropped)
    end.
Proof. reflexivity. Qed.

Lemma flatten_head_ok (us : list LUnit) :
  Forall head_ok us ->
  match flatten us with l :: _ => Remove.is_trailing l = false | [] => True end.
Proof.
  intros H. destruct H as [|u us Hu _]; [exact I|].
  unfold flatten. cbn [map List.concat]. unfold head_ok in Hu.
  destruct (lines_of u) as [|l ls]; [contradiction|]. exact Hu.
Qed.

(** Units of this form are found again by the loop, and nothing is
    dropped. *)
Lemma seg_loop (us : list LUnit) :
  seg us ->
  forall fuel,
    List.length (flatten us) <= fuel ->
    Remove.split_units_loop fuel (flatten us) = (map to_unit us, EmptyString).
Proof.
  induction 1 as [|cl ol Hcl [Hol Hlast]|cl ol tl0 us Hcl [Hol Hclosed] Htl Hok Hseg IH];
    intros fuel Hf.
  - destruct fuel; reflexivity.
  - unfold flatten in *. cbn [map List.concat lines_of] in *.
    rewrite !app_nil_r in *.
    destruct ol as [|o ol]; [contradiction|].
    destruct (cl ++ o :: ol)%list as [|l ls] eqn:E;
      [destruct cl; discriminate|].
    destruct fuel as [|fuel]; [simpl in Hf; lia|].
    rewrite split_units_loop_step, <- E.
    rewrite (gather_comments_exact cl (o :: ol) EmptyString Hcl Hol).
    rewrite Hlast. cbn [Remove.gather_trailing].
    destruct fuel; reflexivity.
  - unfold flatten in *. cbn [map List.concat lines_of] in *. fold (flatten us) in *.
    destruct ol as [|o ol]; [contradiction|].
    rewrite <- !app_assoc in *.
    destruct (cl ++ (o :: ol) ++ tl0 ++ flatten us)%list as [|l ls] eqn:E;
      [destruct cl; discriminate|].
    destruct fuel as [|fuel]; [simpl in Hf; lia|].
    rewrite split_units_loop_step, <- E.
    rewrite (gather_comments_exact cl ((o :: ol) ++ tl0 ++ flatten us) EmptyString Hcl Hol).
    cbn [app]. change (o :: (ol ++ tl0 ++ flatten us)%list)
      with ((o :: ol) ++ (tl0 ++ flatten us))%list.
    rewrite Hclosed.
    rewrite (gather_trailing_exact tl0 (flatten us) EmptyString Htl (flatten_head_ok us Hok)).
    rewrite IH; [reflexivity|].
    rewrite <- E in Hf. rewrite !length_app in Hf. simpl in Hf. lia.
Qed.

Lemma seg_filter (g : LUnit -> bool) (us : list LUnit) :
  seg us -> seg (filter g us).
Proof.
  induction 1 as [|cl ol Hcl Hlast|cl ol tl0 us Hcl Hclosed Htl Hok Hseg IH];
    cbn [filter].
  - constructor.
  - destruct (g _); [now apply seg_last | constructor].
  - destruct (g _); [|exact IH].
    apply seg_cons; auto.
    rewrite Forall_forall in *. intros u Hu. apply filter_In in Hu as [Hu _]. auto.
Qed.

Lemma lines_wf_tail (a b : list string) :
  lines_wf (a ++ b) = true -> lines_wf b = true.
Proof.
  induction a as [|l a IH]; [auto|]. cbn [app lines_wf]. intros H.
  apply andb_true_iff in H as [_ H]. auto.
Qed.

Lemma lines_wf_front (a b : list string) :
  lines_wf (a ++ b) = true -> lines_wf a = true.
Proof.
  induction a as [|l a IH]; [reflexivity|]. cbn [app lines_wf]. intros H.
  apply andb_true_iff in H as [Hl H]. rewrite (IH H), andb_true_r.
  destruct a as [|l' a]; [|exact Hl]. cbn [app] in Hl.
  destruct b as [|l' b]; [exact Hl|].
  apply andb_true_iff in Hl as [-> _]. reflexivity.
Qed.

(** Lines that were followed by other lines can be followed by any
    well-formed lines that do not start with an LF. *)
Lemma lines_wf_glue (a x c : list string) :
  lines_wf (a ++ x) = true -> x <> [] ->
  lines_wf c = true ->
  match c with l :: _ => starts_lf l = false | [] => True end ->
  c <> [] ->
  lines_wf (a ++ c) = true.
Proof.
  intros Ha Hx Hc Hs Hne. induction a as [|l a IH]; [exact Hc|].
  cbn [app lines_wf] in *. apply andb_true_iff in Ha as [Hl Ha].
  rewrite (IH Ha), andb_true_r.
  destruct a as [|l' a]; [|exact Hl]. cbn [app] in *.
  destruct x as [|l' x]; [contradiction|].
  destruct c as [|l'' c]; [contradiction|].
  apply andb_true_iff in Hl as [-> _]. rewrite Hs. now rewrite andb_false_r.
Qed.

Lemma wf_line_not_lf (l : string) (rest : list string) :
  lines_wf (l :: rest) = true -> Remove.is_trailing l = false -> starts_lf l = false.
Proof.
  intros H Ht. destruct l as [|c l]; [reflexivity|]. cbn [starts_lf].
  destruct (Ascii.eqb_spec c LF) as [->|]; [|reflexivity]. exfalso.
  assert (E : l = EmptyString).
  { cbn [lines_wf] in H. apply andb_true_iff in H as [H _].
    assert (C : complete_line (String LF l) = true).
    { destruct rest; [|now apply andb_true_iff in H as [H _]].
      apply orb_true_iff in H as [H|H]; [exact H | discriminate H]. }
    cbn in C. now apply String.eqb_eq in C. }
  subst l. discriminate Ht.
Qed.

Lemma flatten_nonempty (u : LUnit) (us : list LUnit) :
  seg (u :: us) -> flatten (u :: us) <> [].
Proof.
  intros H. destruct (seg_first_lines u us H) as (l & ls & E).
  unfold flatten. cbn [map List.concat]. rewrite E. discriminate.
Qed.

(** The lines of the units that are kept are well formed when the lines of
    all the units were. *)
Lemma lines_wf_filter (g : LUnit -> bool) (us : list LUnit) :
  forall rest,
    seg us ->
    lines_wf (flatten us ++ rest) = true ->
    lines_wf (flatten (filter g us)) = true.
Proof.
  induction us as [|u us IH]; intros rest Hseg Hwf; [reflexivity|].
  assert (Hseg' : seg us) by (inversion Hseg; subst; [constructor | assumption]).
  assert (Hok : Forall head_ok us) by apply (seg_later_ok _ Hseg).
  unfold flatten in Hwf. cbn [map List.concat] in Hwf. fold (flatten us) in Hwf.
  rewrite <- app_assoc in Hwf.
  pose proof (IH rest Hseg' (lines_wf_tail _ _ Hwf)) as K.
  cbn [filter]. destruct (g u); [|exact K].
  unfold flatten. cbn [map List.concat]. fold (flatten (filter g us)).
  destruct (filter g us) as [|v vs] eqn:Ef.
  - cbn. rewrite app_nil_r. apply (lines_wf_front _ _ Hwf).
  - assert (Hv : In v us) by (apply (proj1 (filter_In g v us)); rewrite Ef; now left).
    assert (Sv : seg (v :: vs)) by (rewrite <- Ef; now apply seg_filter).
    destruct (seg_first_lines v vs Sv) as (l & ls & El).
    assert (Hl : Remove.is_trailing l = false).
    { rewrite Forall_forall in Hok. specialize (Hok v Hv). unfold head_ok in Hok.
      now rewrite El in Hok. }
    assert (Hflat : exists t, flatten (v :: vs) = l :: t).
    { unfold flatten. cbn [map List.concat]. rewrite El. cbn [app]. eauto. }
    destruct Hflat as (t & Et).
    apply (lines_wf_glue (lines_of u) (flatten us ++ rest)).
    + exact Hwf.
    + destruct us as [|w ws]; [contradiction|].
      intros C. apply app_eq_nil in C as [C _].
      now apply (flatten_nonempty w ws Hseg').
    + exact K.
    + rewrite Et. rewrite Et in K. now apply (wf_line_not_lf l t).
    + rewrite Et. discriminate.
Qed.

Lemma join_flatten (us : list LUnit) :
  join (map unit_text (map to_unit us)) = join (flatten us).
Proof.
  induction us as [|[[cl ol] tl0] us IH]; [reflexivity|].
  unfold flatten. cbn [map List.concat lines_of to_unit unit_text join].
  fold (flatten us). rewrite IH, !join_app, !append_assoc. reflexivity.
Qed.

(** What [split_units] finds in the text of units that it has found and of
    which some were taken away: the units that are left, and nothing to
    drop. *)
Lemma split_units_of_kept (f : Remove.Unit -> bool) (array_text : string) :
  let kept := filter f (Remove.split_units array_text) in
  Remove.split_units (join (map unit_text kept)) = kept
  /\ Remove.split_units_left (join (map unit_text kept)) = EmptyString.
Proof.
  unfold Remove.split_units, Remove.split_units_left.
  destruct (split_units_loop_seg (List.length (splitlines_keepends array_text))
              (splitlines_keepends array_text) (le_n _))
    as (us & dl & El & Elines & Hseg).
  rewrite El. cbn [fst].
  set (g := fun u => f (to_unit u)).
  assert (Ef : filter f (map to_unit us) = map to_unit (filter g us)).
  { clear. induction us as [|u us IH]; [reflexivity|]. cbn [map filter].
    unfold g at 1. destruct (f (to_unit u)); cbn [map]; now rewrite IH. }
  rewrite Ef, join_flatten.
  assert (W : lines_wf (flatten (filter g us)) = true).
  { apply (lines_wf_filter g us dl Hseg). rewrite <- Elines.
    apply splitlines_keepends_wf. }
  rewrite (splitlines_join _ W).
  rewrite (seg_loop _ (seg_filter g us Hseg) _ (le_n _)). auto.
Qed.

End Resegmentation.

Section RemovalTwice.
Import PyStr Json Common Spec Laws.

Variable json_loads : string -> option jvalue.

Lemma filter_idem {A : Type} (f : A -> bool) (l : list A) :
  filter f (filter f l) = filter f l.
Proof.
  induction l as [|x l IH]; [reflexivity|]. cbn [filter].
  destruct (f x) eqn:E; [|exact IH]. cbn [filter]. now rewrite E, IH.
Qed.

Lemma final_newline_twice (post : string) :
  final_newline (post ++ final_newline post) = EmptyString.
Proof.
  unfold final_newline at 1. now rewrite ends_with_final_newline.
Qed.

(** X14.  The text of units that [split_units] has found, all of them or
    only those that a test keeps, is split into exactly these units again,
    with nothing left after the last one: the comments, the object and the
    trailing text of a unit do not depend on the units around it. *)
Theorem X14_units_are_found_again (f : Remove.Unit -> bool) (array_text : string) :
  let kept := filter f (Remove.split_units array_text) in
  Remove.split_units (join (map unit_text kept)) = kept
  /\ Remove.split_units_left (join (map unit_text kept)) = EmptyString.
Proof. exact (split_units_of_kept f array_text). Qed.

(** X15.  On a text that has an array the removal is idempotent: run again
    on its own output with the same attribute and search string, it writes
    that output unchanged. *)
Theorem X15_removal_is_idempotent (attr val raw : string) :
  has_array raw = true ->
  Remove.main json_loads attr val (Remove.main json_loads attr val raw)
  = Remove.main json_loads attr val raw.
Proof.
  intros H.
  destruct (has_array_split raw H) as (pre & arr & post & E & Hpre & Hpost).
  assert (X : extract_preamble_postamble raw = (pre, arr, post))
    by (rewrite E; now apply extract_build).
  assert (O : Remove.main json_loads attr val raw
              = pre ++ String "["
                  (join (map unit_text (survivors json_loads attr val arr))
                   ++ String "]" (post ++ final_newline post))).
  { rewrite remove_main_eq. unfold preamble_of, array_of, postamble_of.
    rewrite X. reflexivity. }
  rewrite O at 1. rewrite remove_main_eq.
  unfold preamble_of, array_of, postamble_of.
  rewrite (extract_build pre _ (post ++ final_newline post) Hpre
             (final_newline_no_bracket post Hpost)).
  cbn [fst snd]. rewrite final_newline_twice, append_nil_r.
  unfold survivors at 1.
  destruct (split_units_of_kept
              (fun u => negb (Remove.should_remove json_loads (unit_object u) attr val))
              arr) as [K _].
  fold (survivors json_loads attr val arr) in K. rewrite K.
  unfold survivors at 1. rewrite filter_idem.
  fold (survivors json_loads attr val arr). rewrite O. reflexivity.
Qed.

(** X16.  In every unit of [split_units] the comments hold no opening
    brace and the object holds one: a unit starts its object at the first
    line with an opening brace. *)
Theorem X16_unit_parts (array_text : string) :
  Forall (fun u : Remove.Unit =>
            let '(comments, obj, trailing) := u in
            has_char "{" comments = false /\ has_char "{" obj = true)
         (Remove.split_units array_text).
Proof.
  unfold Remove.split_units.
  destruct (split_units_loop_seg (List.length (splitlines_keepends array_text))
              (splitlines_keepends array_text) (le_n _))
    as (us & dl & -> & _ & Hseg).
  cbn [fst]. clear dl.
  assert (C : forall cl, forallb (fun l => negb (has_char "{" l)) cl = true ->
                         has_char "{" (join cl) = false).
  { induction cl as [|l cl IH]; [reflexivity|]. cbn [forallb join]. intros H.
    apply andb_true_iff in H as [Hl Hcl]. apply negb_true_iff in Hl.
    now rewrite has_char_append, Hl, IH. }
  assert (B : forall ol, match ol with l :: _ => has_char "{" l = true | [] => False end ->
                         has_char "{" (join ol) = true).
  { intros [|l ol] H; [contradiction|]. cbn [join].
    now rewrite has_char_append, H. }
  induction Hseg as [|cl ol Hcl [Hol _]|cl ol tl0 us Hcl [Hol _] Htl Hok Hseg IH];
    cbn [map to_unit]; repeat constructor; auto.
Qed.

End RemovalTwice.

Section RemovalComposed.
Import PyStr Json Common Spec Laws.

Variable json_loads : string -> option jvalue.

(** What a removal writes on the output of a removal: the units that both
    keep. *)
Lemma removal_after_removal (attr1 val1 attr2 val2 raw : string) :
  has_array raw = true ->
  Remove.main json_loads attr2 val2 (Remove.main json_loads attr1 val1 raw)
  = preamble_of raw ++ "[" ++
    join (map unit_text
       (filter (fun u => negb (Remove.should_remove json_loads (unit_object u) attr2 val2))
          (survivors json_loads attr1 val1 (array_of raw))))
    ++ "]" ++ postamble_of raw ++ final_newline (postamble_of raw).
Proof.
  intros H.
  destruct (has_array_split raw H) as (pre & arr & post & E & Hpre & Hpost).
  assert (X : extract_preamble_postamble raw = (pre, arr, post))
    by (rewrite E; now apply extract_build).
  assert (O : Remove.main json_loads attr1 val1 raw
              = pre ++ String "["
                  (join (map unit_text (survivors json_loads attr1 val1 arr))
                   ++ String "]" (post ++ final_newline post))).
  { rewrite remove_main_eq. unfold preamble_of, array_of, postamble_of.
    rewrite X. reflexivity. }
  rewrite O. rewrite remove_main_eq.
  unfold preamble_of, array_of, postamble_of.
  rewrite (extract_build pre _ (post ++ final_newline post) Hpre
             (final_newline_no_bracket post Hpost)).
  rewrite X. cbn [fst snd]. rewrite final_newline_twice, append_nil_r.
  unfold survivors at 1.
  destruct (split_units_of_kept
              (fun u => negb (Remove.should_remove json_loads (unit_object u) attr1 val1))
              arr) as [K _].
  fold (survivors json_loads attr1 val1 arr) in K. rewrite K. reflexivity.
Qed.

Lemma filter_comm {A : Type} (f g : A -> bool) (l : list A) :
  filter f (filter g l) = filter g (filter f l).
Proof.
  induction l as [|x l IH]; [reflexivity|]. cbn [filter].
  destruct (f x) eqn:Ef, (g x) eqn:Eg; cbn [filter]; rewrite ?Ef, ?Eg, IH;
    reflexivity.
Qed.

Lemma filter_both {A : Type} (f g : A -> bool) (l : list A) :
  filter g (filter f l) = filter (fun x => f x && g x) l.
Proof.
  induction l as [|x l IH]; [reflexivity|]. cbn [filter].
  destruct (f x) eqn:Ef; cbn [filter andb]; [|exact IH].
  destruct (g x); now rewrite IH.
Qed.

(** X17.  On a text that has an array two removals commute: removing by a
    first attribute and search string and then by a second gives the text
    that the two removals give in the other order, and it keeps exactly the
    units that neither removes. *)
Theorem X17_removals_commute (attr1 val1 attr2 val2 raw : string) :
  has_array raw = true ->
  Remove.main json_loads attr2 val2 (Remove.main json_loads attr1 val1 raw)
  = Remove.main json_loads attr1 val1 (Remove.main json_loads attr2 val2 raw)
  /\ Remove.main json_loads attr2 val2 (Remove.main json_loads attr1 val1 raw)
     = preamble_of raw ++ "[" ++
       join (map unit_text
          (filter (fun u =>
                     negb (Remove.should_remove json_loads (unit_object u) attr1 val1)
                     && negb (Remove.should_remove json_loads (unit_object u) attr2 val2))
                  (Remove.split_units (array_of raw))))
       ++ "]" ++ postamble_of raw ++ final_newline (postamble_of raw).
Proof.
  intros H. rewrite !removal_after_removal by exact H. unfold survivors.
  split; [now rewrite filter_comm | now rewrite filter_both].
Qed.

(** X18.  On a text that has an array, the units that [split_units] finds
    in the output of the removal are the units that the removal kept: the
    output has as many units as the input, less the units that matched. *)
Theorem X18_units_of_the_output (attr val raw : string) :
  has_array raw = true ->
  let out := Remove.main json_loads attr val raw in
  Remove.split_units (array_of out) = survivors json_loads attr val (array_of raw)
  /\ List.length (Remove.split_units (array_of out))
     + List.length
         (filter (fun u => Remove.should_remove json_loads (unit_object u) attr val)
                 (Remove.split_units (array_of raw)))
     = List.length (Remove.split_units (array_of raw)).
Proof.
  intros H out.
  destruct (has_array_split raw H) as (pre & arr & post & E & Hpre & Hpost).
  assert (X : extract_preamble_postamble raw = (pre, arr, post))
    by (rewrite E; now apply extract_build).
  assert (O : out
              = pre ++ String "["
                  (join (map unit_text (survivors json_loads attr val arr))
                   ++ String "]" (post ++ final_newline post))).
  { unfold out. rewrite remove_main_eq. unfold preamble_of, array_of, postamble_of.
    rewrite X. reflexivity. }
  assert (A : array_of out = join (map unit_text (survivors json_loads attr val arr))).
  { unfold array_of. rewrite O.
    now rewrite (extract_build pre _ (post ++ final_newline post) Hpre
                   (final_newline_no_bracket post Hpost)). }
  assert (A0 : array_of raw = arr) by (unfold array_of; now rewrite X).
  rewrite A, A0.
  destruct (split_units_of_kept
              (fun u => negb (Remove.should_remove json_loads (unit_object u) attr val))
              arr) as [K _].
  fold (survivors json_loads attr val arr) in K. rewrite K.
  split; [reflexivity|]. unfold survivors. clear.
  induction (Remove.split_units arr) as [|u l IH]; [reflexivity|].
  cbn [filter].
  destruct (Remove.should_remove json_loads (unit_object u) attr val);
    cbn [negb List.length]; lia.
Qed.

End RemovalComposed.

(** ** The generated bindings *)

Section Generated.
Import PyStr Gigachad.

Lemma length_flat_map_const {A B : Type} (f : A -> list B) (k : nat) (l : list A) :
  (forall x, List.length (f x) = k) ->
  List.length (flat_map f l) = k * List.length l.
Proof.
  intros H. induction l as [|x l IH]; cbn [flat_map List.length]; [lia|].
  rewrite length_app, H, IH. lia.
Qed.

Lemma mem_In (x : string) (l : list string) : mem x l = true <-> In x l.
Proof.
  unfold mem. rewrite existsb_exists. split.
  - intros (y & Hy & E). apply String.eqb_eq in E. now subst.
  - intros H. exists x. split; [exact H | apply String.eqb_refl].
Qed.

(** X19.  The generator builds 64 bindings for every pair of a left-hand
    key and a right-hand key in use: one for each of the four focus
    conditions and each of the sixteen sets of visibility conditions.  A
    first argument that is a left-hand key of the table narrows the
    left-hand keys in use to it, and a second argument that is a right-hand
    key of the table narrows the right-hand keys in use to it; any other
    argument, or none, leaves the whole table in use.  Without arguments
    there are 8064 bindings, and 64 for the arguments ctrl and h. *)
Theorem X19_number_of_bindings (args : list string) (dt_str : string) :
  List.length (keybindings args dt_str)
  = 64 * List.length (left_keys args) * List.length (right_keys args)
  /\ (forall a rest, In a LEFT_HAND_KEYS -> left_keys (a :: rest) = [a])
  /\ (forall a rest, ~ In a LEFT_HAND_KEYS -> left_keys (a :: rest) = LEFT_HAND_KEYS)
  /\ left_keys [] = LEFT_HAND_KEYS
  /\ (forall a b rest, In b RIGHT_HAND_KEYS -> right_keys (a :: b :: rest) = [b])
  /\ (forall a b rest,
        ~ In b RIGHT_HAND_KEYS -> right_keys (a :: b :: rest) = RIGHT_HAND_KEYS)
  /\ (forall a, right_keys [a] = RIGHT_HAND_KEYS)
  /\ right_keys [] = RIGHT_HAND_KEYS
  /\ List.length (keybindings [] dt_str) = 64 * 7 * 18
  /\ List.length (keybindings ["ctrl"; "h"] dt_str) = 64
  /\ List.length (keybindings ["control"; "h"] dt_str) = 64 * 7.
Proof.
  assert (L : forall a, List.length (keybindings a dt_str)
                        = 64 * List.length (left_keys a) * List.length (right_keys a)).
  { intros a. unfold keybindings.
    rewrite (length_flat_map_const _ (64 * List.length (right_keys a))); [lia|].
    intros left.
    rewrite (length_flat_map_const _ 64); [lia|].
    intros right.
    rewrite (length_flat_map_const _ 16); [reflexivity|].
    intros when_focused. now rewrite length_map. }
  split; [apply L|].
  split.
  { intros a rest H. apply mem_In in H. unfold left_keys. now rewrite H. }
  split.
  { intros a rest H. unfold left_keys.
    destruct (mem a LEFT_HAND_KEYS) eqn:E; [|reflexivity].
    apply mem_In in E. contradiction. }
  split; [reflexivity|].
  split.
  { intros a b rest H. apply mem_In in H. unfold right_keys. now rewrite H. }
  split.
  { intros a b rest H. unfold right_keys.
    destruct (mem b RIGHT_HAND_KEYS) eqn:E; [|reflexivity].
    apply mem_In in E. contradiction. }
  split; [reflexivity|].
  split; [reflexivity|].
  split; [rewrite L; reflexivity|].
  split; rewrite L; reflexivity.
Qed.

Lemma prefix_append (p x : string) : prefix p (p ++ x) = true.
Proof.
  induction p as [|c p IH]; [now destruct x|].
  cbn [append prefix]. destruct (ascii_dec c c); [exact IH | contradiction].
Qed.

Lemma contains_middle (a sub b : string) : contains sub (a ++ sub ++ b) = true.
Proof.
  induction a as [|c a IH]; cbn [append].
  - destruct (sub ++ b) eqn:E; cbn [contains]; rewrite <- E, prefix_append;
      reflexivity.
  - cbn [contains]. rewrite IH. now rewrite orb_true_r.
Qed.

Lemma in_flat_map_keys (args : list string) (dt_str : string) (b : binding) :
  In b (keybindings args dt_str) ->
  exists left right when_focused visible_combo,
    In left (left_keys args) /\ In right (right_keys args)
    /\ In when_focused WHEN_FOCUSED /\ In visible_combo visible_permutations
    /\ b = make_binding dt_str left right when_focused visible_combo.
Proof.
  unfold keybindings. intros H.
  apply in_flat_map in H as (left & Hl & H).
  apply in_flat_map in H as (right & Hr & H).
  apply in_flat_map in H as (wf & Hw & H).
  apply in_map_iff in H as (vc & <- & Hv).
  exists left, right, wf, vc. auto.
Qed.

(** X20.  Every generated binding has an identifier made of its key, the
    text -gigachad- and the time stamp, so that the identifier holds the
    search string gigachad of the removal example; its command ends with
    that identifier; and its condition starts with the enabling setting
    and the setting of its left-hand key. *)
Theorem X20_generated_identifiers (args : list string) (dt_str : string) :
  Forall (fun b =>
            b_gigachad b = b_key b ++ "-gigachad-" ++ dt_str
            /\ contains "gigachad" (b_gigachad b) = true
            /\ endswith ("." ++ b_gigachad b) (b_command b) = true
            /\ exists left,
                 In left (left_keys args)
                 /\ startswith ("config.gigachad.enabled && config.gigachad." ++ left)
                               (b_when b) = true)
         (keybindings args dt_str).
Proof.
  apply Forall_forall. intros b Hb.
  apply in_flat_map_keys in Hb as (left & right & wf & vc & Hl & Hr & Hw & Hv & ->).
  cbn [make_binding b_gigachad b_key b_command b_when].
  split; [reflexivity|]. split.
  - change ("-gigachad-" ++ dt_str) with ("-" ++ "gigachad" ++ ("-" ++ dt_str)).
    rewrite <- append_assoc. apply contains_middle.
  - split.
    + do 3 (apply endswith_append; apply (endswith_append _ ".")).
      apply endswith_append. apply (endswith_append_r _ EmptyString).
    + exists left. split; [exact Hl|]. unfold startswith.
      assert (P : forall x, prefix ("config.gigachad.enabled && config.gigachad." ++ left)
                              (("config.gigachad.enabled" ++ " && config.gigachad." ++ left) ++ x)
                            = true).
      { intros x. change ("config.gigachad.enabled" ++ " && config.gigachad." ++ left)
          with ("config.gigachad.enabled && config.gigachad." ++ left).
        apply prefix_append. }
      destruct (sep_join " && " (wf :: vc)) eqn:E.
      * destruct (mem right ARROW_KEYS); [apply P|].
        rewrite <- (append_nil_r (_ ++ _ ++ left)). apply P.
      * destruct (mem right ARROW_KEYS); [|apply P].
        rewrite append_assoc. apply P.
Qed.

End Generated.

Section KeysOfBindings.
Import PyStr Gigachad.

(** X21.  For the keys of the two tables, the key of a binding is the
    left-hand key, a plus sign and the right-hand key; but for the
    right-hand key that is a plus sign the doubled plus sign is replaced
    by one, and the key of the binding is the left-hand key and one plus
    sign. *)
Theorem X21_key_of_a_binding (dt_str left right when_focused : string)
  (visible_combo : list string) :
  In left LEFT_HAND_KEYS -> In right RIGHT_HAND_KEYS ->
  b_key (make_binding dt_str left right when_focused visible_combo)
  = if right =? "+" then left ++ "+" else left ++ "+" ++ right.
Proof.
  intros Hl Hr. cbn [make_binding b_key].
  unfold LEFT_HAND_KEYS in Hl. unfold RIGHT_HAND_KEYS in Hr.
  cbn [In] in Hl, Hr.
  repeat (destruct Hl as [<-|Hl]; [|]); try contradiction;
    repeat (destruct Hr as [<-|Hr]; [|]); try contradiction; reflexivity.
Qed.

End KeysOfBindings.

(** ** Closed instances of the further properties *)

Section MoreInstances.
Import PyStr Json Common Spec Laws Examples Instances.

Lemma X1_witness :
  has_array two_units = true
  /\ (preamble_of two_units ++ "[" ++ array_of two_units ++ "]"
      ++ postamble_of two_units = two_units
      /\ has_char "[" (preamble_of two_units) = false
      /\ has_char "]" (postamble_of two_units) = false).
Proof.
  split; [reflexivity|]. apply (X1_extract_reassembles two_units). reflexivity.
Defined.

Lemma X2_witness :
  has_char "[" "// a]" = false
  /\ has_char "]" "// [b" = false
  /\ extract_preamble_postamble ("// a]" ++ "[" ++ "[1], [2]" ++ "]" ++ "// [b")
     = ("// a]", "[1], [2]", "// [b").
Proof.
  split; [reflexivity|]. split; [reflexivity|].
  apply (X2_extract_of_built_text "// a]" "[1], [2]" "// [b"); reflexivity.
Defined.

Lemma X5_witness :
  Sort.in_obj (group_loop (array_of two_units)) = false
  /\ join (map group_text (fst (Sort.group_objects_with_comments (array_of two_units))))
     ++ snd (Sort.group_objects_with_comments (array_of two_units))
     = array_of two_units.
Proof.
  split; [reflexivity|].
  exact (proj2 (X5_grouping_conserves_text (array_of two_units)) eq_refl).
Defined.

Lemma X6_witness :
  isascii (array_of compact) = true
  /\ one_line (array_of compact) = true
  /\ has_char "{" (array_of compact) = true
  /\ (Sort.group_objects_with_comments (array_of compact) = ([], EmptyString)
      /\ Sort.main json_loads_flat "key" compact
         = Some (preamble_of compact ++ "[]" ++ postamble_of compact
                 ++ final_newline (postamble_of compact))).
Proof.
  split; [reflexivity|]. split; [reflexivity|]. split; [reflexivity|].
  apply (X6_one_line_array_is_emptied json_loads_flat "key" compact); reflexivity.
Defined.

Lemma X9_witness :
  Sort.sorted (fun pair => Sort.extract_sort_keys json_loads_flat (snd pair) "key")
              [record_b; broken_1; record_a; broken_2]
  = Some [broken_1; broken_2; record_a; record_b]
  /\ ((forall k,
          filter (fun g => key_eqb (Sort.extract_sort_keys json_loads_flat (snd g) "key") k)
                 [broken_1; broken_2; record_a; record_b]
          = filter (fun g => key_eqb (Sort.extract_sort_keys json_loads_flat (snd g) "key") k)
                   [record_b; broken_1; record_a; broken_2])
      /\ (forall g h : string * string,
            Sort.key_lt (Sort.extract_sort_keys json_loads_flat (snd g) "key")
                        (Sort.extract_sort_keys json_loads_flat (snd h) "key") = Some false ->
            Sort.key_lt (Sort.extract_sort_keys json_loads_flat (snd h) "key")
                        (Sort.extract_sort_keys json_loads_flat (snd g) "key") = Some false ->
            Sort.extract_sort_keys json_loads_flat (snd g) "key"
            = Sort.extract_sort_keys json_loads_flat (snd h) "key")).
Proof.
  split; [reflexivity|].
  apply (X9_sort_is_stable json_loads_flat "key"). reflexivity.
Defined.

Lemma X10_witness :
  Sort.sorted (fun pair => Sort.extract_sort_keys json_loads_flat (snd pair) "key")
              [record_b; broken_1; record_a; broken_2]
  = Some ([broken_1] ++ broken_2 :: [record_a; record_b])%list
  /\ Sort.extract_sort_keys json_loads_flat (snd broken_2) "key" = Sort.failed_key
  /\ Forall (fun h => Sort.extract_sort_keys json_loads_flat (snd h) "key"
                      = Sort.failed_key) [broken_1].
Proof.
  split; [reflexivity|]. split; [reflexivity|].
  apply (X10_unparsed_first json_loads_flat "key"
           [record_b; broken_1; record_a; broken_2] [broken_1] [record_a; record_b] broken_2);
    reflexivity.
Defined.

Lemma X11_witness :
  isascii "ctrl+f" = true
  /\ String.length "007" <= Sort.int_max_str_digits
  /\ Sort.int_of_digits "007" = Sort.int_of_digits "7"
  /\ Sort.natural_key ("ctrl+f" ++ "007" ++ " x")
     = Sort.natural_key ("ctrl+f" ++ "7" ++ " x").
Proof.
  assert (L1 : length "007" <= Sort.int_max_str_digits)
    by (apply Nat.leb_le; reflexivity).
  assert (L2 : length "7" <= Sort.int_max_str_digits)
    by (apply Nat.leb_le; reflexivity).
  split; [reflexivity|].
  split; [apply Nat.leb_le; reflexivity|].
  split; [reflexivity|].
  apply (X11_equal_runs_tie "ctrl+f" "007" "7" " x"
           eq_refl eq_refl eq_refl eq_refl eq_refl eq_refl L1 L2 eq_refl).
Defined.

Lemma X12_witness :
  literal_body "a // b /* c" = true
  /\ strip_json_comments (String DQ ("a // b /* c" ++ String DQ " // d"))
     = String DQ ("a // b /* c" ++ String DQ (strip_json_comments " // d")).
Proof.
  split; [reflexivity|].
  apply (proj1 X12_strip_json_comments_steps "a // b /* c" " // d"). reflexivity.
Defined.

Lemma X13_witness :
  all_space " " = true
  /\ isascii_char "x" = true
  /\ strip_trailing_commas ("," ++ " " ++ String "x" "}")
     = "," ++ strip_trailing_commas (" " ++ String "x" "}").
Proof.
  split; [reflexivity|]. split; [reflexivity|].
  apply (proj1 (proj2 X13_strip_trailing_commas_steps) " " "x"%char "}");
    reflexivity.
Defined.

Lemma X19_witness :
  In "ctrl" Gigachad.LEFT_HAND_KEYS
  /\ Gigachad.left_keys ["ctrl"; "h"] = ["ctrl"].
Proof.
  assert (H : In "ctrl" Gigachad.LEFT_HAND_KEYS) by (cbn; tauto).
  split; [exact H|].
  apply (proj1 (proj2 (X19_number_of_bindings [] EmptyString)) "ctrl" ["h"] H).
Defined.

Lemma X15_witness :
  has_array two_units = true
  /\ Remove.main json_loads_flat "key" "a"
       (Remove.main json_loads_flat "key" "a" two_units)
     = Remove.main json_loads_flat "key" "a" two_units.
Proof.
  split; [reflexivity|].
  apply (X15_removal_is_idempotent json_loads_flat "key" "a" two_units). reflexivity.
Defined.

Lemma X17_witness :
  has_array two_units = true
  /\ (Remove.main json_loads_flat "key" "b"
        (Remove.main json_loads_flat "key" "a" two_units)
      = Remove.main json_loads_flat "key" "a"
          (Remove.main json_loads_flat "key" "b" two_units)
      /\ Remove.main json_loads_flat "key" "b"
           (Remove.main json_loads_flat "key" "a" two_units)
         = preamble_of two_units ++ "[" ++
           join (map unit_text
              (filter (fun u =>
                         negb (Remove.should_remove json_loads_flat (unit_object u) "key" "a")
                         && negb (Remove.should_remove json_loads_flat (unit_object u) "key" "b"))
                      (Remove.split_units (array_of two_units))))
           ++ "]" ++ postamble_of two_units ++ final_newline (postamble_of two_units)).
Proof.
  split; [reflexivity|].
  apply (X17_removals_commute json_loads_flat "key" "a" "key" "b" two_units).
  reflexivity.
Defined.

Lemma X18_witness :
  has_array two_units = true
  /\ (let out := Remove.main json_loads_flat "key" "a" two_units in
      Remove.split_units (array_of out)
      = survivors json_loads_flat "key" "a" (array_of two_units)
      /\ List.length (Remove.split_units (array_of out))
         + List.length
             (filter (fun u => Remove.should_remove json_loads_flat (unit_object u) "key" "a")
                     (Remove.split_units (array_of two_units)))
         = List.length (Remove.split_units (array_of two_units))).
Proof.
  split; [reflexivity|].
  apply (X18_units_of_the_output json_loads_flat "key" "a" two_units). reflexivity.
Defined.

Lemma X21_witness :
  In "ctrl" Gigachad.LEFT_HAND_KEYS /\ In "+" Gigachad.RIGHT_HAND_KEYS
  /\ Gigachad.b_key (Gigachad.make_binding "250101000000" "ctrl" "+" "editorFocus" [])
     = "ctrl+".
Proof.
  assert (Hl : In "ctrl" Gigachad.LEFT_HAND_KEYS) by (cbn; tauto).
  assert (Hr : In "+" Gigachad.RIGHT_HAND_KEYS) by (cbn; tauto).
  split; [exact Hl|]. split; [exact Hr|].
  apply (X21_key_of_a_binding "250101000000" "ctrl" "+" "editorFocus" [] Hl Hr).
Defined.

End MoreInstances.
